(** * pgwrr.db: reserved-address test, GeoIP zone lookup and weighted
    round-robin site lookup

    A shallow embedding of [pgwrr/db.py] (Python 2) and the verification of
    its specification.  Dictionaries are finite maps ([gmap]), Python
    exceptions are an explicit outcome type, and the effects the module has
    (logging, the GeoIP reader, [random.randint]) are threaded through a
    small state monad whose state records what was done. *)

From Stdlib Require Import ZArith String Ascii List Lia Bool.
From stdpp Require Import base option list gmap strings fin_maps sorting.

Open Scope string_scope.
Open Scope Z_scope.

(** ** Python built-ins used by the module *)

Module Py.

(** [s.find(c)] for a one-character needle: the index of the first
    occurrence, or [-1]. *)
Fixpoint find (s : string) (c : ascii) : Z :=
  match s with
  | EmptyString => -1
  | String a r =>
      if Ascii.eqb a c then 0
      else let i := find r c in if i <? 0 then -1 else i + 1
  end.

Fixpoint drop (n : nat) (s : string) : string :=
  match n, s with
  | O, _ => s
  | S n', EmptyString => EmptyString
  | S n', String _ r => drop n' r
  end.

Definition len (s : string) : Z := Z.of_nat (String.length s).

(** [s[i:]]: a negative start counts from the end, and the start is
    clamped to the string. *)
Definition slice_from (s : string) (i : Z) : string :=
  let start := if i <? 0 then Z.max 0 (i + len s) else Z.min i (len s) in
  drop (Z.to_nat start) s.

(** [s.split(c)] for a one-character separator; never the empty list. *)
Fixpoint split (s : string) (c : ascii) : list string :=
  match s with
  | EmptyString => [EmptyString]
  | String a r =>
      if Ascii.eqb a c then EmptyString :: split r c
      else match split r c with
           | h :: t => String a h :: t
           | [] => [String a EmptyString]
           end
  end.

(** [c in s] for a character. *)
Fixpoint contains (s : string) (c : ascii) : bool :=
  match s with
  | EmptyString => false
  | String a r => Ascii.eqb a c || contains r c
  end.

(** [set.issuperset(s)] where the set is given by its membership test. *)
Fixpoint all_in (p : ascii -> bool) (s : string) : bool :=
  match s with
  | EmptyString => true
  | String a r => p a && all_in p r
  end.

Definition code (c : ascii) : Z := Z.of_N (N_of_ascii c).

Definition digit_value (c : ascii) : option Z :=
  let n := code c in
  if (48 <=? n) && (n <=? 57) then Some (n - 48)
  else if (97 <=? n) && (n <=? 102) then Some (n - 87)
  else if (65 <=? n) && (n <=? 70) then Some (n - 55)
  else None.

Fixpoint int_acc (base : Z) (s : string) (acc : Z) : option Z :=
  match s with
  | EmptyString => Some acc
  | String a r =>
      match digit_value a with
      | Some d => if d <? base then int_acc base r (acc * base + d) else None
      | None => None
      end
  end.

(** [int(s, base)] on a string of digits; [None] is [ValueError].  The
    callers whitelist the characters first, so signs, blanks and
    underscores never reach it. *)
Definition int (s : string) (base : Z) : option Z :=
  match s with
  | EmptyString => None
  | _ => int_acc base s 0
  end.

Definition hex_digit (d : Z) : ascii :=
  ascii_of_N (Z.to_N (if d <? 10 then 48 + d else 87 + d)).

(** ['%x' % n] for [0 <= n < 65536]. *)
Definition hex (n : Z) : string :=
  let d3 := n / 4096 in
  let d2 := (n / 256) mod 16 in
  let d1 := (n / 16) mod 16 in
  let d0 := n mod 16 in
  if 0 <? d3 then String (hex_digit d3) (String (hex_digit d2)
                    (String (hex_digit d1) (String (hex_digit d0) "")))
  else if 0 <? d2 then String (hex_digit d2)
                    (String (hex_digit d1) (String (hex_digit d0) ""))
  else if 0 <? d1 then String (hex_digit d1) (String (hex_digit d0) "")
  else String (hex_digit d0) "".

(** [sorted(...)] on strings: ascending in the ordinal order of the
    characters. *)
Definition str_le (a b : string) : Prop := String.leb a b = true.

#[global] Instance str_le_dec a b : Decision (str_le a b).
Proof. unfold str_le. apply _. Defined.

Definition sorted (l : list string) : list string := merge_sort str_le l.

End Py.

(** ** The [ipaddr] library, as far as [reserved] uses it

    [ipaddr] is a third-party package and not part of this repository.  The
    definitions below follow ipaddr-py 2.1: textual parsing of IPv4 and IPv6
    addresses, networks in [address/prefixlen] form, containment, and the
    classification properties. *)

Module ipaddr.

Inductive address :=
| IPv4Address (_ip : Z)
| IPv6Address (_ip : Z).

Definition version (ip : address) : Z :=
  match ip with IPv4Address _ => 4 | IPv6Address _ => 6 end.

Definition int_of (ip : address) : Z :=
  match ip with IPv4Address n => n | IPv6Address n => n end.

Definition is_decimal_digit (c : ascii) : bool :=
  (48 <=? Py.code c) && (Py.code c <=? 57).

Definition is_hex_digit (c : ascii) : bool :=
  is_decimal_digit c
  || ((97 <=? Py.code c) && (Py.code c <=? 102))
  || ((65 <=? Py.code c) && (Py.code c <=? 70)).

(** [_BaseV4._parse_octet]: decimal digits only, at most 255, no leading
    zero. *)
Definition _parse_octet (octet_str : string) : option Z :=
  if negb (Py.all_in is_decimal_digit octet_str) then None
  else
    octet_int ← Py.int octet_str 10;
    let leading_zero :=
      match octet_str with
      | String "0"%char (String _ _) => true
      | _ => false
      end in
    if (255 <? octet_int) || leading_zero then None else Some octet_int.

Definition v4_int_from_string (ip_str : string) : option Z :=
  let octets := Py.split ip_str "."%char in
  if negb (length octets =? 4)%nat then None
  else
    foldl (fun packed oc =>
             p ← packed; o ← _parse_octet oc;
             Some (Z.lor (Z.shiftl p 8) o))
          (Some 0) octets.

(** [_BaseV6._parse_hextet]: one to four hexadecimal digits. *)
Definition _parse_hextet (hextet_str : string) : option Z :=
  if negb (Py.all_in is_hex_digit hextet_str) then None
  else if 4 <? Py.len hextet_str then None
  else
    hextet_int ← Py.int hextet_str 16;
    if 65535 <? hextet_int then None else Some hextet_int.

Definition parse_hextets (parts : list string) (ip_int : Z) : option Z :=
  foldl (fun acc part =>
           a ← acc; h ← _parse_hextet part;
           Some (Z.lor (Z.shiftl a 16) h))
        (Some ip_int) parts.

Definition is_empty (s : string) : bool :=
  match s with EmptyString => true | _ => false end.

(** The indices [i] in [range(1, len(parts) - 1)] whose part is empty. *)
Definition skip_indices (parts : list string) : list nat :=
  filter (fun i => is_empty (nth i parts "x") = true)
         (seq 1 (length parts - 2)).

Definition v6_int_from_string (ip_str : string) : option Z :=
  let parts := Py.split ip_str ":"%char in
  if (length parts <? 3)%nat then None
  else
    (* an IPv4-style suffix is rewritten into two hextets *)
    parts ←
      (if Py.contains (List.last parts "") "."%char then
         ipv4_int ← v4_int_from_string (List.last parts "");
         Some (removelast parts
                 ++ [Py.hex (Z.land (Z.shiftr ipv4_int 16) 65535);
                     Py.hex (Z.land ipv4_int 65535)])%list
       else Some parts);
    if (9 <? length parts)%nat then None
    else
      match skip_indices parts with
      | _ :: _ :: _ => None
      | [skip_index] =>
          let parts_hi := Z.of_nat skip_index in
          let parts_lo := Z.of_nat (length parts) - Z.of_nat skip_index - 1 in
          hi ← (if is_empty (nth 0 parts "x") then
                  if parts_hi - 1 =? 0 then Some 0 else None
                else Some parts_hi);
          lo ← (if is_empty (List.last parts "x") then
                  if parts_lo - 1 =? 0 then Some 0 else None
                else Some parts_lo);
          let parts_skipped := 8 - (hi + lo) in
          if parts_skipped <? 1 then None
          else
            ip_int ← parse_hextets (take (Z.to_nat hi) parts) 0;
            parse_hextets
              (drop (length parts - Z.to_nat lo)%nat parts)
              (Z.shiftl ip_int (16 * parts_skipped))
      | [] =>
          if negb (length parts =? 8)%nat then None
          else parse_hextets parts 0
      end.

(** [ipaddr.IPAddress(text)]: IPv4 is tried first, then IPv6; [None] is
    the [ValueError] of an input that is neither. *)
Definition IPAddress (text : string) : option address :=
  match v4_int_from_string text with
  | Some n => Some (IPv4Address n)
  | None =>
      if is_empty text then None
      else IPv6Address <$> v6_int_from_string text
  end.

(** Networks: the address as written and the prefix length. *)
Record network := Network {
  net_version : Z;
  net_ip : Z;
  net_prefixlen : Z
}.

Definition max_prefixlen (v : Z) : Z := if v =? 4 then 32 else 128.
Definition all_ones (v : Z) : Z := 2 ^ max_prefixlen v - 1.

Definition netmask (n : network) : Z :=
  let ones := all_ones (net_version n) in
  Z.lxor ones (Z.shiftr ones (net_prefixlen n)).
Definition hostmask (n : network) : Z :=
  Z.lxor (netmask n) (all_ones (net_version n)).
Definition net_network (n : network) : Z := Z.land (net_ip n) (netmask n).
Definition net_broadcast (n : network) : Z := Z.lor (net_ip n) (hostmask n).

(** [ip in net]. *)
Definition contains (n : network) (ip : address) : bool :=
  if negb (net_version n =? version ip) then false
  else (net_network n <=? int_of ip) && (int_of ip <=? net_broadcast n).

(** The prefix-length form of the netmask: digits, in range. *)
Definition prefix_from_string (v : Z) (s : string) : option Z :=
  if negb (Py.all_in is_decimal_digit s) then None
  else
    p ← Py.int s 10;
    if p <=? max_prefixlen v then Some p else None.

Definition parse_network (v : Z) (parse : string -> option Z)
    (text : string) : option network :=
  match Py.split text "/"%char with
  | [a] => ip ← parse a; Some (Network v ip (max_prefixlen v))
  | [a; m] => ip ← parse a; p ← prefix_from_string v m;
              Some (Network v ip p)
  | _ => None
  end.

(** [ipaddr.IPv4Network(text)] and [ipaddr.IPv6Network(text)] for a bare
    address or [address/prefixlen]; the module writes no other form. *)
Definition IPv4Network : string -> option network :=
  parse_network 4 v4_int_from_string.
Definition IPv6Network : string -> option network :=
  parse_network 6 v6_int_from_string.

Definition in_net (text : string) (ip : address) : bool :=
  match (if version ip =? 4 then IPv4Network text else IPv6Network text) with
  | Some n => contains n ip
  | None => false
  end.

Definition is_v4 (ip : address) : bool :=
  match ip with IPv4Address _ => true | _ => false end.
Definition is_v6 (ip : address) : bool :=
  match ip with IPv6Address _ => true | _ => false end.

Definition is_private (ip : address) : bool :=
  match ip with
  | IPv4Address _ =>
      in_net "10.0.0.0/8" ip || in_net "172.16.0.0/12" ip
      || in_net "192.168.0.0/16" ip
  | IPv6Address _ => in_net "fc00::/7" ip
  end.

Definition is_multicast (ip : address) : bool :=
  match ip with
  | IPv4Address _ => in_net "224.0.0.0/4" ip
  | IPv6Address _ => in_net "ff00::/8" ip
  end.

Definition is_unspecified (ip : address) : bool :=
  match ip with
  | IPv4Address _ => in_net "0.0.0.0" ip
  | IPv6Address n => n =? 0
  end.

Definition is_loopback (ip : address) : bool :=
  match ip with
  | IPv4Address _ => in_net "127.0.0.0/8" ip
  | IPv6Address n => n =? 1
  end.

Definition is_link_local (ip : address) : bool :=
  match ip with
  | IPv4Address _ => in_net "169.254.0.0/16" ip
  | IPv6Address _ => in_net "fe80::/10" ip
  end.

End ipaddr.

(** ** [reserved] *)

Definition networks (ctor : string -> option ipaddr.network)
    (nets : list string) : list ipaddr.network :=
  omap ctor nets.

Definition _IPV4_PRIVATE_NETWORKS : list ipaddr.network :=
  networks ipaddr.IPv4Network
    [ "0.0.0.0/8"; "10.0.0.0/8"; "127.0.0.0/8"; "169.254.0.0/16";
      "172.16.0.0/12"; "192.0.0.0/29"; "192.0.0.170/31"; "192.0.2.0/24";
      "192.168.0.0/16"; "198.18.0.0/15"; "198.51.100.0/24";
      "203.0.113.0/24"; "240.0.0.0/4"; "255.255.255.255/32" ].

Definition _IPV6_PRIVATE_NETWORKS : list ipaddr.network :=
  networks ipaddr.IPv6Network
    [ "::1/128"; "::/128"; "::ffff:0:0/96"; "100::/64"; "2001::/23";
      "2001:2::/48"; "2001:db8::/32"; "2001:10::/28"; "fc00::/7";
      "fe80::/10" ].

(** The shared address space block that [reserved] tests inline. *)
Definition shared_address_space : option ipaddr.network :=
  ipaddr.IPv4Network "100.64.0.0/10".

(** [reserved(address)]: [true] when the text is no IP address (the
    [ValueError] branch) or the address is in one of the reserved ranges. *)
Definition reserved (address : string) : bool :=
  match ipaddr.IPAddress address with
  | None => true
  | Some ip =>
      ipaddr.is_private ip
      || ipaddr.is_multicast ip
      || ipaddr.is_unspecified ip
      || ipaddr.is_loopback ip
      || ipaddr.is_link_local ip
      || (ipaddr.is_v4 ip
          && (existsb (fun net => ipaddr.contains net ip) _IPV4_PRIVATE_NETWORKS
              || match shared_address_space with
                 | Some net => ipaddr.contains net ip
                 | None => true
                 end))
      || (ipaddr.is_v6 ip
          && existsb (fun net => ipaddr.contains net ip) _IPV6_PRIVATE_NETWORKS)
  end.

(** ** Exceptions and effects *)

Inductive exn :=
| KeyError (key : option string)
| IndexError
| TypeError
| ValueError
| AddressNotFoundError
| OtherError (cls : string).

Inductive outcome (A : Type) :=
| Return (a : A)
| Raise (e : exn).
Arguments Return {A} a.
Arguments Raise {A} e.

(** What a call does besides computing its result. *)
Inductive event :=
| LogInfo (msg : string)
| LogWarning (msg : string)
| CityLookup (address : string)
| RandInt (a b r : Z).

(** [entropy] is the source [random.randint] reads from, [draws] the number
    of values taken from it so far, [trace] the events in the order they
    happened. *)
Record world := World {
  entropy : nat -> Z;
  draws : nat;
  trace : list event
}.

Definition M (A : Type) : Type := world -> outcome A * world.

Definition ret {A} (a : A) : M A := fun w => (Return a, w).
Definition raise {A} (e : exn) : M A := fun w => (Raise e, w).
Definition bind {A B} (m : M A) (k : A -> M B) : M B :=
  fun w =>
    match m w with
    | (Return a, w') => k a w'
    | (Raise e, w') => (Raise e, w')
    end.

Declare Scope py_scope.
Delimit Scope py_scope with py.
Notation "'let!' x ':=' m 'in' k" := (bind m (fun x => k))
  (at level 10, x name, m at level 200, k at level 200) : py_scope.
Notation "m ;;; k" := (bind m (fun _ => k))
  (at level 100, k at level 200, right associativity) : py_scope.
Open Scope py_scope.

(** Runs [m] and hands its outcome over, as a [try] block does. *)
Definition attempt {A} (m : M A) : M (outcome A) :=
  fun w => let '(o, w') := m w in (Return o, w').

Definition emit (e : event) : M unit :=
  fun w => (Return tt, World (entropy w) (draws w) (trace w ++ [e])).

Definition logging_info (msg : string) : M unit := emit (LogInfo msg).
Definition logging_warning (msg : string) : M unit := emit (LogWarning msg).

(** [random.randint(a, b)]: a value in [[a, b]], or [ValueError] on an
    empty range. *)
Definition randint (a b : Z) : M Z :=
  fun w =>
    if b <? a then (Raise ValueError, w)
    else
      let r := a + entropy w (draws w) mod (b - a + 1) in
      (Return r, World (entropy w) (S (draws w)) (trace w ++ [RandInt a b r])).

(** ** Dictionaries *)

Section dict.
Context {V : Type}.

(** [k in d] *)
Definition dict_in (k : string) (d : gmap string V) : bool :=
  match d !! k with Some _ => true | None => false end.

(** [d[k]] *)
Definition getitem (d : gmap string V) (k : string) : M V :=
  match d !! k with
  | Some v => ret v
  | None => raise (KeyError (Some k))
  end.

(** [d.keys()] and [d.values()], in the dictionary's own order. *)
Definition dict_keys (d : gmap string V) : list string := (map_to_list d).*1.
Definition dict_values (d : gmap string V) : list V := (map_to_list d).*2.

(** [len(d)] *)
Definition dict_len (d : gmap string V) : Z := Z.of_nat (size d).
End dict.

(** ** [zone] *)

(** A value of the zones dictionary: a zone name or a nested dictionary. *)
#[warnings="-register-all"] Inductive zval :=
| ZStr (name : string)
| ZDict (d : gmap string zval).

(** What the module reads off a GeoIP2 City response:
    [geo.country.iso_code] and
    [geo.subdivisions.most_specific.iso_code]; either may be [None]. *)
Record geo := Geo {
  country_iso_code : option string;
  subdivision_iso_code : option string
}.

(** The reader's [city] method, as the database it answers from. *)
Definition georeader_t : Type := string -> outcome geo.

Definition city (georeader : georeader_t) (address : string) : M geo :=
  emit (CityLookup address) ;;; (fun w => (georeader address, w)).

(** [d.get(k, dflt)] where the key may be [None], which no dictionary
    loaded from the configuration has. *)
Definition zget (d : gmap string zval) (k : option string) (dflt : zval)
    : zval :=
  default dflt (k ≫= (d !!.)).

(** Lines 116-136: geolocate [address] and map the answer to a zone. *)
Definition zone_geolocate (georeader : georeader_t) (zones : gmap string zval)
    (default_zone : zval) (address : string) : M zval :=
  let! r := attempt (city georeader address) in
  match r with
  | Raise AddressNotFoundError =>
      logging_warning
        ("Address not found in GeoIP database: " ++ address ++ "!") ;;;
      ret default_zone
  | Raise e => raise e
  | Return g =>
      let country := country_iso_code g in
      let gzone := zget zones country default_zone in
      match gzone with
      | ZDict d =>
          let region := subdivision_iso_code g in
          let! default_zone :=
            match country ≫= (zones !!.) with
            | Some (ZDict c) => getitem c "default"
            | Some (ZStr _) => raise TypeError
            | None => raise (KeyError country)
            end in
          ret (zget d region default_zone)
      | _ => ret gzone
      end
  end.

Definition zone (georeader : georeader_t) (zones : gmap string zval)
    (remoteip : string) (edns : string) : M zval :=
  let! default_zone := getitem zones "default" in
  let edns := hd "" (Py.split edns "/"%char) in
  if reserved edns then
    if reserved remoteip then
      logging_info ("Reserved address: " ++ remoteip ++ "!") ;;;
      ret default_zone
    else zone_geolocate georeader zones default_zone remoteip
  else zone_geolocate georeader zones default_zone edns.

(** ** [site] *)

(** A record set [<type>: {ttl: ..., content: {<zone>: {<ip>: <weight>}}}];
    both keys may be missing from the configuration. *)
Record record_set := RecordSet {
  rs_ttl : option Z;
  rs_content : option (gmap string (gmap string Z))
}.

Definition answer : Type := string * string * Z.

(** The loop of lines 211-214 over the sorted addresses. *)
Fixpoint wrr_loop (mcontent : gmap string Z) (rnd : Z)
    (addresses : list string) (upto : Z) (address : string) : string :=
  match addresses with
  | [] => address
  | a :: rest =>
      if rnd <=? upto + mcontent !!! a then a
      else wrr_loop mcontent rnd rest (upto + mcontent !!! a) a
  end.

Definition sum (l : list Z) : Z := foldl Z.add 0 l.

(** The loop run on a table, from the address picked beforehand and the
    random number drawn. *)
Definition wrr_pick (mcontent : gmap string Z) (address : string) (rnd : Z)
    : string :=
  wrr_loop mcontent rnd (Py.sorted (dict_keys mcontent)) 0 address.

(** Lines 205-214: the address for one weight table. *)
Definition wrr (mcontent : gmap string Z) : M string :=
  let! address :=
    match dict_keys mcontent with
    | a :: _ => ret a
    | [] => raise IndexError
    end in
  if 1 <? dict_len mcontent then
    let! rnd := randint 1 (sum (dict_values mcontent)) in
    ret (wrr_pick mcontent address rnd)
  else ret address.

(** The body of the loop of lines 199-216. *)
Definition site_answer (mclass : gmap string record_set) (qzone : string)
    (qtype : string) : M answer :=
  let! mname := getitem mclass qtype in
  let mttl := default 3600 (rs_ttl mname) in
  let! content :=
    match rs_content mname with
    | Some c => ret c
    | None => raise (KeyError (Some "content"))
    end in
  let! dflt := getitem content "default" in
  let mcontent := default dflt (content !! qzone) in
  let! address := wrr mcontent in
  ret (qtype, address, mttl).

Fixpoint site_loop (mclass : gmap string record_set) (qzone : string)
    (qtypes : list string) (sites : list answer) : M (list answer) :=
  match qtypes with
  | [] => ret sites
  | qtype :: rest =>
      let! a := site_answer mclass qzone qtype in
      site_loop mclass qzone rest (sites ++ [a])
  end.

Definition wildcard (qname : string) : string :=
  "*" ++ Py.slice_from qname (Py.find qname "."%char).

Definition site (sites : gmap string (gmap string (gmap string record_set)))
    (qname qzone qclass qtype : string) : M (list answer) :=
  match
    (if negb (dict_in qname sites) then
       if dict_in (wildcard qname) sites then Some (wildcard qname) else None
     else Some qname)
  with
  | None => logging_warning ("No such site: " ++ qname ++ "!") ;;; ret []
  | Some qname =>
      match sites !! qname ≫= (.!! qclass) with
      | None =>
          logging_warning ("No match for: " ++ qname ++ " " ++ qclass ++ "!") ;;;
          ret []
      | Some mclass =>
          if String.eqb qtype "ANY" then
            site_loop mclass qzone (Py.sorted (dict_keys mclass)) []
          else if dict_in qtype mclass then
            site_loop mclass qzone [qtype] []
          else
            logging_warning
              ("No match for: " ++ qname ++ " " ++ qclass ++ " " ++ qtype ++ "!") ;;;
            ret []
      end
  end.

(** The defaults of the keyword arguments. *)
Definition zone_default_edns : string := "0.0.0.0/8".
Definition site_default_qclass : string := "IN".
Definition site_default_qtype : string := "ANY".

(** * Specification vocabulary and fixtures *)

(** The city lookups among some events. *)
Fixpoint lookups (evs : list event) : list string :=
  match evs with
  | [] => []
  | CityLookup a :: r => a :: lookups r
  | _ :: r => lookups r
  end.

(** The events a call adds to the trace. *)
Definition emitted {A} (m : M A) (w : world) (evs : list event) : Prop :=
  trace (m w).2 = (trace w ++ evs)%list.

(** The reserved blocks as the specification lists them, written out
    independently of the tables of the module. *)
Definition listed_ipv4_blocks : list string :=
  [ "0.0.0.0/8"; "10.0.0.0/8"; "127.0.0.0/8"; "169.254.0.0/16";
    "172.16.0.0/12"; "192.0.0.0/29"; "192.0.0.170/31"; "192.0.2.0/24";
    "192.168.0.0/16"; "198.18.0.0/15"; "198.51.100.0/24"; "203.0.113.0/24";
    "240.0.0.0/4"; "255.255.255.255/32"; "100.64.0.0/10" ].

Definition listed_ipv6_blocks : list string :=
  [ "::1/128"; "::/128"; "::ffff:0:0/96"; "100::/64"; "2001::/23";
    "2001:2::/48"; "2001:db8::/32"; "2001:10::/28"; "fc00::/7"; "fe80::/10" ].

Definition listed_blocks : list string :=
  (listed_ipv4_blocks ++ listed_ipv6_blocks)%list.

(** The part of a name from its first dot on; empty when it has none. *)
Fixpoint from_first_dot (qname : string) : string :=
  match qname with
  | EmptyString => EmptyString
  | String a r =>
      if Ascii.eqb a "."%char then qname else from_first_dot r
  end.

(** Follows the specification's words, for comparison with [wildcard]: the
    name with its leftmost label replaced by [*].  A name without a dot is
    one label. *)
Definition spec_wildcard (qname : string) : string :=
  "*" ++ from_first_dot qname.

(** The blocks [reserved] tests by containment: both tables and the block
    it names inline. *)
Definition reserved_blocks : list ipaddr.network :=
  (_IPV4_PRIVATE_NETWORKS ++ option_list shared_address_space
     ++ _IPV6_PRIVATE_NETWORKS)%list.

(** The world after one more event. *)
Definition logged (w : world) (e : event) : world :=
  World (entropy w) (draws w) (trace w ++ [e]).

(** What lines 124-136 compute from a GeoIP answer. *)
Definition zone_of_geo (zones : gmap string zval) (default_zone : zval)
    (g : geo) : outcome zval :=
  match zget zones (country_iso_code g) default_zone with
  | ZDict d =>
      match country_iso_code g ≫= (zones !!.) with
      | Some (ZDict c) =>
          match c !! "default" with
          | Some dflt => Return (zget d (subdivision_iso_code g) dflt)
          | None => Raise (KeyError (Some "default"))
          end
      | Some (ZStr _) => Raise TypeError
      | None => Raise (KeyError (country_iso_code g))
      end
  | ZStr s => Return (ZStr s)
  end.

(** The address [zone] geolocates, when it geolocates one. *)
Definition geolocated (remoteip edns a : string) : Prop :=
  let ednsaddr := hd "" (Py.split edns "/"%char) in
  (reserved ednsaddr = false /\ a = ednsaddr)
  \/ (reserved ednsaddr = true /\ reserved remoteip = false /\ a = remoteip).

(** Fixtures: the configuration of the docstrings and a small database. *)
Definition zones_example : gmap string zval :=
  <["default" := ZStr "eu"]>
    (<["FR" := ZStr "eu"]>
       (<["US" := ZDict (<["default" := ZStr "us-east"]>
                           (<["CA" := ZStr "us-west"]> ∅))]> ∅)).

Definition georeader_example : georeader_t :=
  fun a =>
    if String.eqb a "8.8.8.8" then Return (Geo (Some "US") (Some "CA"))
    else if String.eqb a "9.9.9.9" then Return (Geo (Some "US") (Some "NY"))
    else if String.eqb a "5.5.5.5" then Return (Geo (Some "FR") None)
    else Raise AddressNotFoundError.

Definition georeader_broken : georeader_t :=
  fun _ => Raise (OtherError "InvalidDatabaseError").

Definition world_example : world := World (fun n => Z.of_nat n * 37) 0 [].

(** The weights of some addresses, summed. *)
Definition wsum (mcontent : gmap string Z) (l : list string) : Z :=
  sum ((fun a => mcontent !!! a) <$> l).

(** The weights of the addresses the loop visits before [a]. *)
Fixpoint before (mcontent : gmap string Z) (l : list string) (a : string)
    : Z :=
  match l with
  | [] => 0
  | x :: r => if decide (x = a) then 0 else mcontent !!! x + before mcontent r a
  end.

Definition table_example : gmap string Z :=
  <["1.1.1.1" := 20]> (<["2.2.2.2" := 80]> ∅).

(** The well-formed configuration of the docstring: a weight table is not
    empty and its weights are positive; a record set has a [content] with a
    [default] zone. *)
Definition wf_table (table : gmap string Z) : Prop :=
  table <> ∅ /\ map_Forall (fun _ wt => 0 < wt) table.

Definition wf_record (rs : record_set) : Prop :=
  match rs_content rs with
  | Some c => is_Some (c !! "default") /\ map_Forall (fun _ t => wf_table t) c
  | None => False
  end.

Definition wf_class (mclass : gmap string record_set) : Prop :=
  map_Forall (fun _ rs => wf_record rs) mclass.

#[global] Instance wf_table_dec table : Decision (wf_table table).
Proof. unfold wf_table. apply _. Defined.

#[global] Instance wf_record_dec rs : Decision (wf_record rs).
Proof. unfold wf_record. destruct (rs_content rs); apply _. Defined.

#[global] Instance wf_class_dec mclass : Decision (wf_class mclass).
Proof. unfold wf_class. apply _. Defined.

(** The name [site] goes on with after lines 174-182. *)
Definition matched (sites : gmap string (gmap string (gmap string record_set)))
    (qname : string) : option string :=
  if dict_in qname sites then Some qname
  else if dict_in (wildcard qname) sites then Some (wildcard qname)
  else None.

(** [ans] is an answer for [qtype]: its ttl is the record set's or 3600, and
    its address comes out of the weighted choice on the table of [qzone],
    or on the [default] table when the zone has none. *)
Definition answer_of (mclass : gmap string record_set) (qzone qtype : string)
    (ans : answer) : Prop :=
  exists rs c dflt w1 w2,
    mclass !! qtype = Some rs
    /\ rs_content rs = Some c
    /\ c !! "default" = Some dflt
    /\ ans.1.1 = qtype
    /\ ans.2 = match rs_ttl rs with Some t => t | None => 3600 end
    /\ wrr (match c !! qzone with Some t => t | None => dflt end) w1
       = (Return ans.1.2, w2).

(** Fixture: the sites of the docstring, with an [MX] record added. *)
Definition content_A_example : gmap string (gmap string Z) :=
  <["default" := table_example]> (<["us" := <["3.3.3.3" := 100]> ∅]> ∅).

Definition content_MX_example : gmap string (gmap string Z) :=
  <["default" := <["10 mail.example.com" := 1]> ∅]> ∅.

Definition record_A_example : record_set :=
  RecordSet None (Some content_A_example).

Definition record_MX_example : record_set :=
  RecordSet (Some 60) (Some content_MX_example).

Definition class_example : gmap string record_set :=
  <["A" := record_A_example]> (<["MX" := record_MX_example]> ∅).

Definition class_wildcard_example : gmap string record_set :=
  <["A" := RecordSet None (Some (<["default" := <["1.1.1.1" := 100]> ∅]> ∅))]> ∅.

Definition sites_example : gmap string (gmap string (gmap string record_set)) :=
  <["www.example.com" := <["IN" := class_example]> ∅]>
    (<["*.example.com" := <["IN" := class_wildcard_example]> ∅]> ∅).

(** A value of the zones dictionary that [zone] may answer with: the root
    default, the string of a country, or an entry of a country's dictionary
    (its [default] included). *)
Definition reachable (zones : gmap string zval) (v : zval) : Prop :=
  zones !! "default" = Some v
  \/ (exists c s, zones !! c = Some v /\ v = ZStr s)
  \/ (exists c d r, zones !! c = Some (ZDict d) /\ d !! r = Some v).

Definition sites_dotless_example
    : gmap string (gmap string (gmap string record_set)) :=
  <["*t" := <["IN" := class_wildcard_example]> ∅]> ∅.

Definition zones_no_region_default : gmap string zval :=
  <["default" := ZStr "eu"]>
    (<["US" := ZDict (<["CA" := ZStr "us-west"]> ∅)]> ∅).

Definition class_no_default_example : gmap string record_set :=
  <["A" := RecordSet None (Some (<["us" := <["3.3.3.3" := 100]> ∅]> ∅))]> ∅.

Definition sites_no_default_example
    : gmap string (gmap string (gmap string record_set)) :=
  <["www.example.com" := <["IN" := class_no_default_example]> ∅]> ∅.

Definition class_empty_table_example : gmap string record_set :=
  <["A" := RecordSet None (Some (<["default" := ∅]> ∅))]> ∅.

Definition sites_empty_table_example
    : gmap string (gmap string (gmap string record_set)) :=
  <["www.example.com" := <["IN" := class_empty_table_example]> ∅]> ∅.

Definition table_zero_example : gmap string Z :=
  <["1.1.1.1" := 0]> (<["2.2.2.2" := 0]> ∅).

Definition table_mixed_example : gmap string Z :=
  <["1.1.1.1" := 0]> (<["2.2.2.2" := 5]> ∅).

(** From [w] to [w']: the random source is the same, at most [n] numbers
    were drawn, and the events added hold no GeoIP lookup. *)
Definition quiet (w w' : world) (n : nat) : Prop :=
  entropy w' = entropy w
  /\ (draws w <= draws w' <= draws w + n)%nat
  /\ exists evs, trace w' = (trace w ++ evs)%list /\ lookups evs = [].

Definition sites_empty_class_example
    : gmap string (gmap string (gmap string record_set)) :=
  <["www.example.com" := <["IN" := ∅]> ∅]> ∅.

Definition v4 (a b c d : Z) : Z := ((a * 256 + b) * 256 + c) * 256 + d.

Definition v6 (a b c d e f g h : Z) : Z :=
  ((((((a * 65536 + b) * 65536 + c) * 65536 + d) * 65536 + e) * 65536 + f)
     * 65536 + g) * 65536 + h.

(** The IPv4 addresses [reserved] accepts, as ranges of their integers. *)
Definition reserved_v4_ranges : list (Z * Z) :=
  [ (v4 0 0 0 0, v4 0 255 255 255);
    (v4 10 0 0 0, v4 10 255 255 255);
    (v4 100 64 0 0, v4 100 127 255 255);
    (v4 127 0 0 0, v4 127 255 255 255);
    (v4 169 254 0 0, v4 169 254 255 255);
    (v4 172 16 0 0, v4 172 31 255 255);
    (v4 192 0 0 0, v4 192 0 0 7);
    (v4 192 0 0 170, v4 192 0 0 171);
    (v4 192 0 2 0, v4 192 0 2 255);
    (v4 192 168 0 0, v4 192 168 255 255);
    (v4 198 18 0 0, v4 198 19 255 255);
    (v4 198 51 100 0, v4 198 51 100 255);
    (v4 203 0 113 0, v4 203 0 113 255);
    (v4 224 0 0 0, v4 255 255 255 255) ].

(** The same for IPv6. *)
Definition reserved_v6_ranges : list (Z * Z) :=
  [ (v6 0 0 0 0 0 0 0 0, v6 0 0 0 0 0 0 0 1);
    (v6 0 0 0 0 0 0xffff 0 0, v6 0 0 0 0 0 0xffff 0xffff 0xffff);
    (v6 0x100 0 0 0 0 0 0 0, v6 0x100 0 0 0 0xffff 0xffff 0xffff 0xffff);
    (v6 0x2001 0 0 0 0 0 0 0,
     v6 0x2001 0x1ff 0xffff 0xffff 0xffff 0xffff 0xffff 0xffff);
    (v6 0x2001 0xdb8 0 0 0 0 0 0,
     v6 0x2001 0xdb8 0xffff 0xffff 0xffff 0xffff 0xffff 0xffff);
    (v6 0xfc00 0 0 0 0 0 0 0,
     v6 0xfdff 0xffff 0xffff 0xffff 0xffff 0xffff 0xffff 0xffff);
    (v6 0xfe80 0 0 0 0 0 0 0,
     v6 0xfebf 0xffff 0xffff 0xffff 0xffff 0xffff 0xffff 0xffff);
    (v6 0xff00 0 0 0 0 0 0 0,
     v6 0xffff 0xffff 0xffff 0xffff 0xffff 0xffff 0xffff 0xffff) ].

Definition in_ranges (ranges : list (Z * Z)) (n : Z) : bool :=
  existsb (fun r => (r.1 <=? n) && (n <=? r.2)) ranges.

(** * Verification *)

(** ** Running the monad *)

Lemma bind_ret {A B} (m : M A) (k : A -> M B) (w w' : world) (a : A) :
  m w = (Return a, w') -> bind m k w = k a w'.
Proof. intros H. unfold bind. now rewrite H. Qed.

Lemma bind_raise {A B} (m : M A) (k : A -> M B) (w w' : world) (e : exn) :
  m w = (Raise e, w') -> bind m k w = (Raise e, w').
Proof. intros H. unfold bind. now rewrite H. Qed.

Lemma getitem_Some {V} (d : gmap string V) (k : string) (v : V) (w : world) :
  d !! k = Some v -> getitem d k w = (Return v, w).
Proof. intros H. unfold getitem. now rewrite H. Qed.

Lemma getitem_None {V} (d : gmap string V) (k : string) (w : world) :
  d !! k = None -> getitem d k w = (Raise (KeyError (Some k)), w).
Proof. intros H. unfold getitem. now rewrite H. Qed.

(** ** [reserved] *)

Lemma private_networks_all_parsed :
  length _IPV4_PRIVATE_NETWORKS = 14%nat
  /\ length _IPV6_PRIVATE_NETWORKS = 10%nat
  /\ is_Some shared_address_space.
Proof. split; [reflexivity | split; [reflexivity | vm_compute; eauto]]. Qed.

Lemma v4_networks_version :
  Forall (fun n => ipaddr.net_version n = 4) _IPV4_PRIVATE_NETWORKS.
Proof. vm_compute. repeat constructor. Qed.

Lemma v6_networks_version :
  Forall (fun n => ipaddr.net_version n = 6) _IPV6_PRIVATE_NETWORKS.
Proof. vm_compute. repeat constructor. Qed.

Lemma contains_version (n : ipaddr.network) (ip : ipaddr.address) :
  ipaddr.contains n ip = true -> ipaddr.version ip = ipaddr.net_version n.
Proof.
  unfold ipaddr.contains.
  destruct (ipaddr.net_version n =? ipaddr.version ip) eqn:E; simpl.
  - intros _. symmetry. now apply Z.eqb_eq.
  - discriminate.
Qed.

Lemma version_4_is_v4 (ip : ipaddr.address) :
  ipaddr.version ip = 4 -> ipaddr.is_v4 ip = true.
Proof. destruct ip; simpl; [reflexivity | discriminate]. Qed.

Lemma version_6_is_v6 (ip : ipaddr.address) :
  ipaddr.version ip = 6 -> ipaddr.is_v6 ip = true.
Proof. destruct ip; simpl; [discriminate | reflexivity]. Qed.

Lemma reserved_in_block (ip : ipaddr.address) (net : ipaddr.network) :
  In net reserved_blocks -> ipaddr.contains net ip = true ->
  (ipaddr.is_v4 ip
   && (existsb (fun net => ipaddr.contains net ip) _IPV4_PRIVATE_NETWORKS
       || match shared_address_space with
          | Some net => ipaddr.contains net ip
          | None => true
          end))
  || (ipaddr.is_v6 ip
      && existsb (fun net => ipaddr.contains net ip) _IPV6_PRIVATE_NETWORKS)
  = true.
Proof.
  intros Hin Hc. pose proof (contains_version _ _ Hc) as Hv.
  unfold reserved_blocks in Hin.
  apply in_app_or in Hin as [H4 | Hin]; [| apply in_app_or in Hin as [Hs | H6]].
  - apply orb_true_iff. left.
    pose proof (proj1 (List.Forall_forall _ _) v4_networks_version _ H4) as E.
    rewrite version_4_is_v4, andb_true_l by congruence.
    apply orb_true_iff. left. apply existsb_exists. eauto.
  - apply orb_true_iff. left.
    destruct shared_address_space as [s |] eqn:Es; simpl in Hs; [| tauto].
    destruct Hs as [-> | []].
    assert (ipaddr.net_version net = 4) as E.
    { revert Es. vm_compute. now intros [= <-]. }
    rewrite version_4_is_v4, andb_true_l by congruence.
    rewrite Hc. apply orb_true_r.
  - apply orb_true_iff. right.
    pose proof (proj1 (List.Forall_forall _ _) v6_networks_version _ H6) as E.
    rewrite version_6_is_v6, andb_true_l by congruence.
    apply existsb_exists. eauto.
Qed.

Lemma listed_ipv4_blocks_tested :
  Forall (fun cidr =>
            (exists net, ipaddr.IPv4Network cidr = Some net
                         /\ In net reserved_blocks)
            /\ ipaddr.IPv6Network cidr = None)
    listed_ipv4_blocks.
Proof.
  unfold listed_ipv4_blocks.
  repeat (constructor;
          [split; [eexists; split; [reflexivity | vm_compute; tauto]
                  | reflexivity] |]).
  constructor.
Qed.

Lemma listed_ipv6_blocks_tested :
  Forall (fun cidr =>
            (exists net, ipaddr.IPv6Network cidr = Some net
                         /\ In net reserved_blocks)
            /\ ipaddr.IPv4Network cidr = None)
    listed_ipv6_blocks.
Proof.
  unfold listed_ipv6_blocks.
  repeat (constructor;
          [split; [eexists; split; [reflexivity | vm_compute; tauto]
                  | reflexivity] |]).
  constructor.
Qed.

(** An address in a block of the specification's list is in a network that
    [reserved] tests. *)
Lemma listed_block_tested (cidr : string) (ip : ipaddr.address) :
  In cidr listed_blocks ->
  ipaddr.in_net cidr ip = true ->
  exists net, In net reserved_blocks /\ ipaddr.contains net ip = true.
Proof.
  unfold listed_blocks, ipaddr.in_net. intros Hin Hc.
  apply in_app_or in Hin as [H4 | H6].
  - destruct (proj1 (List.Forall_forall _ _) listed_ipv4_blocks_tested _ H4)
      as [(net & Hnet & Hblock) Hnone].
    destruct ip as [n | n]; simpl in Hc.
    + rewrite Hnet in Hc. eauto.
    + rewrite Hnone in Hc. discriminate.
  - destruct (proj1 (List.Forall_forall _ _) listed_ipv6_blocks_tested _ H6)
      as [(net & Hnet & Hblock) Hnone].
    destruct ip as [n | n]; simpl in Hc.
    + rewrite Hnone in Hc. discriminate.
    + rewrite Hnet in Hc. eauto.
Qed.

(** C8: text that is no IP address is reserved; an address in one of the
    IPv4 or IPv6 blocks listed by the specification (100.64.0.0/10
    included), or private, multicast, unspecified, loopback or link-local,
    is reserved; 8.8.8.8 and 2001:4860:4860::8888 are not. *)
Theorem reserved_spec :
  (forall address : string,
      ipaddr.IPAddress address = None -> reserved address = true)
  /\ (forall (address : string) (ip : ipaddr.address),
         ipaddr.IPAddress address = Some ip ->
         (exists cidr, In cidr listed_blocks /\ ipaddr.in_net cidr ip = true)
         \/ ipaddr.is_private ip = true
         \/ ipaddr.is_multicast ip = true
         \/ ipaddr.is_unspecified ip = true
         \/ ipaddr.is_loopback ip = true
         \/ ipaddr.is_link_local ip = true ->
         reserved address = true)
  /\ reserved "8.8.8.8" = false
  /\ reserved "2001:4860:4860::8888" = false.
Proof.
  split; [| split; [| split; reflexivity]].
  - intros address H. unfold reserved. now rewrite H.
  - intros address ip H Hc. unfold reserved. rewrite H.
    destruct Hc as [(cidr & Hin & Hc) | Hc].
    + destruct (listed_block_tested cidr ip Hin Hc) as (net & Hnet & Hcont).
      pose proof (reserved_in_block ip net Hnet Hcont) as R.
      apply orb_true_iff in R as [R | R].
      * rewrite R. now rewrite !orb_true_r.
      * rewrite R. now rewrite !orb_true_r.
    + repeat (destruct Hc as [Hc | Hc]; [rewrite Hc; now rewrite ?orb_true_r |]).
      rewrite Hc; now rewrite ?orb_true_r.
Qed.

Lemma reserved_spec_witness :
  reserved "not-an-ip" = true
  /\ reserved "192.0.2.1" = true
  /\ reserved "100.64.0.1" = true
  /\ reserved "2001:db8::1" = true
  /\ reserved "ff02::1" = true.
Proof.
  split; [| split; [| split; [| split]]].
  - apply (proj1 reserved_spec). reflexivity.
  - apply (proj1 (proj2 reserved_spec) "192.0.2.1"
             (ipaddr.IPv4Address 3221225985)).
    + reflexivity.
    + left. exists "192.0.2.0/24". split; [vm_compute; tauto | reflexivity].
  - apply (proj1 (proj2 reserved_spec) "100.64.0.1"
             (ipaddr.IPv4Address 1681915905)).
    + reflexivity.
    + left. exists "100.64.0.0/10". split; [vm_compute; tauto | reflexivity].
  - apply (proj1 (proj2 reserved_spec) "2001:db8::1"
             (ipaddr.IPv6Address 42540766411282592856903984951653826561)).
    + reflexivity.
    + left. exists "2001:db8::/32". split; [vm_compute; tauto | reflexivity].
  - apply (proj1 (proj2 reserved_spec) "ff02::1"
             (ipaddr.IPv6Address 338963523518870617245727861364146307073)).
    + reflexivity.
    + right. right. left. reflexivity.
Defined.

(** ** [zone] *)

Lemma zone_geolocate_run georeader zones dz a w :
  zone_geolocate georeader zones dz a w =
  match georeader a with
  | Return g => (zone_of_geo zones dz g, logged w (CityLookup a))
  | Raise AddressNotFoundError =>
      (Return dz,
       logged (logged w (CityLookup a))
         (LogWarning ("Address not found in GeoIP database: " ++ a ++ "!")))
  | Raise e => (Raise e, logged w (CityLookup a))
  end.
Proof.
  unfold zone_geolocate, bind, attempt, city, bind, emit, logged, zone_of_geo.
  simpl. destruct (georeader a) as [g | e]; simpl.
  - destruct (zget zones (country_iso_code g) dz) as [s | d]; [reflexivity |].
    destruct (country_iso_code g ≫= (zones !!.)) as [[s | c] |];
      try reflexivity.
    unfold getitem. destruct (c !! "default"); reflexivity.
  - destruct e; reflexivity.
Qed.

Lemma zone_geolocate_lookups georeader zones dz a w :
  exists evs, emitted (zone_geolocate georeader zones dz a) w evs
              /\ lookups evs = [a].
Proof.
  unfold emitted. rewrite zone_geolocate_run.
  destruct (georeader a) as [g | e].
  - exists [CityLookup a]. split; reflexivity.
  - destruct e;
      try (exists [CityLookup a]; split; reflexivity).
    exists [CityLookup a;
            LogWarning ("Address not found in GeoIP database: " ++ a ++ "!")].
    split; [| reflexivity]. simpl. now rewrite <- app_assoc.
Qed.

Lemma zone_run georeader zones remoteip edns dz w :
  zones !! "default" = Some dz ->
  zone georeader zones remoteip edns w =
  let ednsaddr := hd "" (Py.split edns "/"%char) in
  if reserved ednsaddr then
    if reserved remoteip then
      (Return dz, logged w (LogInfo ("Reserved address: " ++ remoteip ++ "!")))
    else zone_geolocate georeader zones dz remoteip w
  else zone_geolocate georeader zones dz ednsaddr w.
Proof.
  intros H. unfold zone.
  rewrite (bind_ret _ _ w w dz) by now apply getitem_Some.
  cbv zeta. destruct (reserved (hd "" (Py.split edns "/"%char))); [| reflexivity].
  destruct (reserved remoteip); reflexivity.
Qed.

(** [edns.split('/')[0]] is what precedes the first slash. *)
Lemma split_head (s : string) (c : ascii) :
  Py.contains (hd "" (Py.split s c)) c = false
  /\ (s = hd "" (Py.split s c)
      \/ exists rest, s = hd "" (Py.split s c) ++ String c rest).
Proof.
  induction s as [| a r [IH1 IH2]]; simpl.
  - split; [reflexivity | now left].
  - destruct (Ascii.eqb a c) eqn:E; simpl.
    + apply Ascii.eqb_eq in E as ->. split; [reflexivity |].
      right. now exists r.
    + destruct (Py.split r c) as [| h t] eqn:Es; simpl in *.
      * rewrite E. split; [reflexivity |].
        destruct IH2 as [-> | [rest ->]]; [now left | right; now exists rest].
      * rewrite E, IH1. split; [reflexivity |].
        destruct IH2 as [-> | [rest ->]]; [now left | right; now exists rest].
Qed.

(** C1: with the netmask stripped from the EDNS subnet, the lookup is made
    on the EDNS address when that is not reserved, otherwise on the remote
    address when that is not reserved, and when both are reserved the root
    default is returned at once with no lookup. *)
Theorem zone_address_choice georeader zones remoteip edns dz w :
  zones !! "default" = Some dz ->
  let ednsaddr := hd "" (Py.split edns "/"%char) in
  (Py.contains ednsaddr "/"%char = false
   /\ (edns = ednsaddr \/ exists rest, edns = ednsaddr ++ String "/"%char rest))
  /\ (reserved ednsaddr = false ->
      zone georeader zones remoteip edns w
      = zone_geolocate georeader zones dz ednsaddr w
      /\ exists evs, emitted (zone georeader zones remoteip edns) w evs
                     /\ lookups evs = [ednsaddr])
  /\ (reserved ednsaddr = true -> reserved remoteip = false ->
      zone georeader zones remoteip edns w
      = zone_geolocate georeader zones dz remoteip w
      /\ exists evs, emitted (zone georeader zones remoteip edns) w evs
                     /\ lookups evs = [remoteip])
  /\ (reserved ednsaddr = true -> reserved remoteip = true ->
      (zone georeader zones remoteip edns w).1 = Return dz
      /\ exists evs, emitted (zone georeader zones remoteip edns) w evs
                     /\ lookups evs = []).
Proof.
  intros H ednsaddr. split; [apply split_head |].
  pose proof (zone_run georeader zones remoteip edns dz w H) as R.
  cbv zeta in R. fold ednsaddr in R.
  split; [| split].
  - intros E. rewrite E in R. split; [exact R |].
    unfold emitted. rewrite R. apply zone_geolocate_lookups.
  - intros E1 E2. rewrite E1, E2 in R. split; [exact R |].
    unfold emitted. rewrite R. apply zone_geolocate_lookups.
  - intros E1 E2. rewrite E1, E2 in R. rewrite R. split; [reflexivity |].
    exists [LogInfo ("Reserved address: " ++ remoteip ++ "!")].
    split; [| reflexivity]. unfold emitted. now rewrite R.
Qed.

Lemma zone_geolocated georeader zones remoteip edns dz a w :
  zones !! "default" = Some dz -> geolocated remoteip edns a ->
  zone georeader zones remoteip edns w
  = zone_geolocate georeader zones dz a w.
Proof.
  intros H G. rewrite (zone_run _ _ _ _ dz) by exact H. cbv zeta.
  destruct G as [[E ->] | (E1 & E2 & ->)].
  - now rewrite E.
  - now rewrite E1, E2.
Qed.

Lemma zone_address_choice_witness :
  zone georeader_example zones_example "10.0.0.1" "8.8.8.8/24" world_example
  = zone_geolocate georeader_example zones_example (ZStr "eu") "8.8.8.8"
      world_example.
Proof.
  destruct (zone_address_choice georeader_example zones_example "10.0.0.1"
              "8.8.8.8/24" (ZStr "eu") world_example eq_refl)
    as (_ & H & _).
  apply H. reflexivity.
Defined.

(** C2 as stated fails: an error of the reader other than
    [AddressNotFoundError] leaves [zone] as an exception. *)
Lemma zone_lookup_error_escapes :
  ~ (forall georeader zones remoteip edns dz w a e,
        zones !! "default" = Some dz ->
        geolocated remoteip edns a ->
        georeader a = Raise e ->
        (zone georeader zones remoteip edns w).1 = Return dz).
Proof.
  intros H.
  specialize (H georeader_broken zones_example "8.8.8.8" "0.0.0.0/8"
                (ZStr "eu") world_example "8.8.8.8"
                (OtherError "InvalidDatabaseError") eq_refl).
  assert ((zone georeader_broken zones_example "8.8.8.8" "0.0.0.0/8"
             world_example).1
          = Raise (OtherError "InvalidDatabaseError")) as R
      by (vm_compute; reflexivity).
  rewrite R in H. discriminate H.
  - right. repeat split; reflexivity.
  - reflexivity.
Qed.

(** C2, amended: [AddressNotFoundError] from the lookup is answered with the
    root default and a warning; any other error of the reader is raised by
    [zone] unchanged. *)
Theorem zone_lookup_errors georeader zones remoteip edns dz w a e :
  zones !! "default" = Some dz ->
  geolocated remoteip edns a ->
  georeader a = Raise e ->
  (e = AddressNotFoundError ->
   zone georeader zones remoteip edns w
   = (Return dz,
      logged (logged w (CityLookup a))
        (LogWarning ("Address not found in GeoIP database: " ++ a ++ "!"))))
  /\ (e <> AddressNotFoundError ->
      zone georeader zones remoteip edns w
      = (Raise e, logged w (CityLookup a))).
Proof.
  intros H G R.
  rewrite (zone_geolocated _ _ _ _ dz a) by assumption.
  rewrite zone_geolocate_run, R. split.
  - now intros ->.
  - intros Hne. destruct e; try reflexivity. now destruct Hne.
Qed.

Lemma zone_lookup_errors_witness :
  (zone georeader_example zones_example "1.1.1.1" "0.0.0.0/8"
     world_example).1 = Return (ZStr "eu")
  /\ (zone georeader_broken zones_example "1.1.1.1" "0.0.0.0/8"
        world_example).1 = Raise (OtherError "InvalidDatabaseError").
Proof.
  assert (geolocated "1.1.1.1" "0.0.0.0/8" "1.1.1.1") as G
      by (right; repeat split; reflexivity).
  split.
  - destruct (zone_lookup_errors georeader_example zones_example "1.1.1.1"
                "0.0.0.0/8" (ZStr "eu") world_example "1.1.1.1"
                AddressNotFoundError eq_refl G eq_refl) as [H _].
    now rewrite H.
  - destruct (zone_lookup_errors georeader_broken zones_example "1.1.1.1"
                "0.0.0.0/8" (ZStr "eu") world_example "1.1.1.1"
                (OtherError "InvalidDatabaseError") eq_refl G eq_refl)
      as [_ H].
    rewrite H; [reflexivity | discriminate].
Defined.

(** C3: on a well-formed zones dictionary and a GeoIP answer, an unknown
    country gives the root default, a country mapped to a string gives that
    string, and a country mapped to a dictionary gives the entry of the
    subdivision when there is one and the dictionary's own default
    otherwise. *)
Theorem zone_country_region georeader zones remoteip edns dz w a g :
  zones !! "default" = Some (ZStr dz) ->
  (forall c d, zones !! c = Some (ZDict d) -> is_Some (d !! "default")) ->
  geolocated remoteip edns a ->
  georeader a = Return g ->
  let z := (zone georeader zones remoteip edns w).1 in
  let entry := country_iso_code g ≫= (zones !!.) in
  (entry = None -> z = Return (ZStr dz))
  /\ (forall s, entry = Some (ZStr s) -> z = Return (ZStr s))
  /\ (forall d, entry = Some (ZDict d) ->
        (forall v, subdivision_iso_code g ≫= (d !!.) = Some v -> z = Return v)
        /\ (subdivision_iso_code g ≫= (d !!.) = None ->
            exists rd, d !! "default" = Some rd /\ z = Return rd)).
Proof.
  intros H Hwf G R z entry. subst z entry.
  rewrite (zone_geolocated _ _ _ _ (ZStr dz) a) by assumption.
  rewrite zone_geolocate_run, R. unfold zone_of_geo, zget. simpl.
  split; [| split].
  - intros ->. reflexivity.
  - intros s ->. reflexivity.
  - intros d E. rewrite E. simpl.
    destruct (country_iso_code g) as [c |]; [| discriminate]. simpl in E.
    destruct (Hwf c d E) as [rd Hrd]. rewrite Hrd. split.
    + intros v ->. reflexivity.
    + intros ->. now exists rd.
Qed.

Lemma zones_example_regions c d :
  zones_example !! c = Some (ZDict d) -> is_Some (d !! "default").
Proof.
  unfold zones_example. intros H.
  destruct (decide (c = "default")) as [-> | ?]; [discriminate |].
  rewrite lookup_insert_ne in H by congruence.
  destruct (decide (c = "FR")) as [-> | ?]; [discriminate |].
  rewrite lookup_insert_ne in H by congruence.
  destruct (decide (c = "US")) as [-> | ?].
  - rewrite lookup_insert_eq in H. injection H as <-. now eexists.
  - rewrite lookup_insert_ne in H by congruence. discriminate.
Qed.

Lemma zone_country_region_witness :
  (zone georeader_example zones_example "9.9.9.9" "0.0.0.0/8"
     world_example).1 = Return (ZStr "us-east").
Proof.
  assert (geolocated "9.9.9.9" "0.0.0.0/8" "9.9.9.9") as G
      by (right; repeat split; reflexivity).
  destruct (zone_country_region georeader_example zones_example "9.9.9.9"
              "0.0.0.0/8" "eu" world_example "9.9.9.9"
              (Geo (Some "US") (Some "NY")) eq_refl zones_example_regions
              G eq_refl) as (_ & _ & H).
  destruct (H (<["default" := ZStr "us-east"]> (<["CA" := ZStr "us-west"]> ∅))
              eq_refl) as [_ H'].
  destruct (H' eq_refl) as (rd & Hrd & Hz).
  rewrite Hz. f_equal. vm_compute in Hrd. now injection Hrd as <-.
Defined.

(** ** Sorting strings *)

Lemma ascii_compare_refl (a : ascii) : Ascii.compare a a = Eq.
Proof. unfold Ascii.compare. apply N.compare_refl. Qed.

Lemma ascii_compare_lt_trans (a b c : ascii) :
  Ascii.compare a b = Lt -> Ascii.compare b c = Lt -> Ascii.compare a c = Lt.
Proof.
  unfold Ascii.compare. rewrite !N.compare_lt_iff. apply N.lt_trans.
Qed.

Lemma string_compare_le_trans (a b c : string) :
  String.compare a b <> Gt -> String.compare b c <> Gt ->
  String.compare a c <> Gt.
Proof.
  revert b c. induction a as [| x a IH]; intros [| y b] [| z c]; simpl;
    try congruence.
  destruct (Ascii.compare x y) eqn:Exy; destruct (Ascii.compare y z) eqn:Eyz;
    try congruence.
  - apply Ascii.compare_eq_iff in Exy as ->.
    apply Ascii.compare_eq_iff in Eyz as ->.
    rewrite ascii_compare_refl. apply IH.
  - apply Ascii.compare_eq_iff in Exy as ->. now rewrite Eyz.
  - apply Ascii.compare_eq_iff in Eyz as <-. now rewrite Exy.
  - now rewrite (ascii_compare_lt_trans x y z).
Qed.

#[global] Instance str_le_trans : Transitive Py.str_le.
Proof.
  intros a b c. unfold Py.str_le, String.leb. intros H1 H2.
  pose proof (string_compare_le_trans a b c) as T.
  destruct (String.compare a b); destruct (String.compare b c);
    destruct (String.compare a c); try reflexivity; try discriminate;
    exfalso; apply T; congruence.
Qed.

#[global] Instance str_le_total : Total Py.str_le.
Proof. intros a b. apply String.leb_total. Qed.

Lemma sorted_perm (l : list string) : Py.sorted l ≡ₚ l.
Proof. apply merge_sort_Permutation. Qed.

Lemma sorted_ascending (l : list string) :
  StronglySorted Py.str_le (Py.sorted l).
Proof. apply StronglySorted_merge_sort; apply _. Qed.

Lemma sorted_elem (l : list string) (x : string) : x ∈ Py.sorted l <-> x ∈ l.
Proof. now rewrite sorted_perm. Qed.

(** ** Dictionaries as lists *)

Lemma dict_keys_elem {V} (d : gmap string V) (k : string) :
  k ∈ dict_keys d <-> is_Some (d !! k).
Proof.
  unfold dict_keys. rewrite list_elem_of_fmap. split.
  - intros ([k' v] & -> & H). apply elem_of_map_to_list in H. eauto.
  - intros [v H]. exists (k, v). split; [reflexivity |].
    now apply elem_of_map_to_list.
Qed.

Lemma dict_keys_NoDup {V} (d : gmap string V) : NoDup (dict_keys d).
Proof. apply NoDup_fst_map_to_list. Qed.

Lemma dict_values_keys (d : gmap string Z) :
  dict_values d = (fun k => d !!! k) <$> dict_keys d.
Proof.
  unfold dict_values, dict_keys. rewrite <- list_fmap_compose.
  apply Forall_fmap_ext_1, Forall_forall. intros [k v] H. simpl.
  apply elem_of_map_to_list in H. now rewrite (lookup_total_correct _ _ _ H).
Qed.

Lemma dict_keys_nil {V} (d : gmap string V) : dict_keys d = [] <-> d = ∅.
Proof.
  unfold dict_keys. rewrite <- map_to_list_empty_iff. split.
  - apply fmap_nil_inv.
  - now intros ->.
Qed.

Lemma dict_keys_length {V} (d : gmap string V) :
  length (dict_keys d) = size d.
Proof. unfold dict_keys. rewrite length_fmap. apply length_map_to_list. Qed.

(** ** Weighted round robin *)

Lemma foldl_add (a : Z) (l : list Z) : foldl Z.add a l = a + foldl Z.add 0 l.
Proof.
  revert a. induction l as [| x l IH]; intros a; simpl; [lia |].
  rewrite (IH (a + x)), (IH (0 + x)). lia.
Qed.

Lemma sum_cons (x : Z) (l : list Z) : sum (x :: l) = x + sum l.
Proof. unfold sum. simpl. apply foldl_add. Qed.

Lemma sum_app (l1 l2 : list Z) : sum (l1 ++ l2) = sum l1 + sum l2.
Proof.
  induction l1 as [| x l1 IH]; [reflexivity |].
  rewrite <- app_comm_cons, !sum_cons, IH. lia.
Qed.

Lemma sum_perm (l1 l2 : list Z) : l1 ≡ₚ l2 -> sum l1 = sum l2.
Proof.
  induction 1 as [| x l1 l2 _ IH | x y l | l1 l2 l3 _ IH1 _ IH2];
    rewrite ?sum_cons; lia.
Qed.

Section wrr_facts.
Variable mcontent : gmap string Z.
Variable rnd : Z.

Lemma wsum_cons x l : wsum mcontent (x :: l) = mcontent !!! x + wsum mcontent l.
Proof. unfold wsum. rewrite fmap_cons. apply sum_cons. Qed.

Lemma wsum_app l1 l2 :
  wsum mcontent (l1 ++ l2) = wsum mcontent l1 + wsum mcontent l2.
Proof. unfold wsum. rewrite fmap_app. apply sum_app. Qed.

Lemma wsum_nonneg l :
  (forall x, x ∈ l -> 0 <= mcontent !!! x) -> 0 <= wsum mcontent l.
Proof.
  induction l as [| x l IH]; intros H; [reflexivity |].
  rewrite wsum_cons.
  assert (0 <= mcontent !!! x) by (apply H; left).
  assert (0 <= wsum mcontent l) by (apply IH; intros y Hy; apply H; now right).
  lia.
Qed.

Lemma before_nonneg l a :
  (forall x, x ∈ l -> 0 <= mcontent !!! x) -> 0 <= before mcontent l a.
Proof.
  induction l as [| x l IH]; intros H; simpl; [lia |].
  destruct (decide (x = a)); [lia |].
  assert (0 <= mcontent !!! x) by (apply H; left).
  assert (0 <= before mcontent l a) by (apply IH; intros y Hy; apply H; now right).
  lia.
Qed.

Lemma before_prefix l1 a l2 :
  a ∉ l1 -> before mcontent (l1 ++ a :: l2) a = wsum mcontent l1.
Proof.
  induction l1 as [| x l1 IH]; intros H; simpl.
  - now rewrite decide_True.
  - rewrite not_elem_of_cons in H. destruct H as [Hne H].
    rewrite decide_False by congruence. rewrite wsum_cons, IH by exact H.
    reflexivity.
Qed.

Lemma before_bound l a :
  (forall x, x ∈ l -> 0 <= mcontent !!! x) -> a ∈ l ->
  before mcontent l a + mcontent !!! a <= wsum mcontent l.
Proof.
  induction l as [| x l IH]; intros H Ha; [now apply elem_of_nil in Ha |].
  simpl. rewrite wsum_cons. destruct (decide (x = a)) as [-> | Hne].
  - assert (0 <= wsum mcontent l)
      by (apply wsum_nonneg; intros y Hy; apply H; now right).
    lia.
  - apply elem_of_cons in Ha as [-> | Ha]; [congruence |].
    assert (before mcontent l a + mcontent !!! a <= wsum mcontent l)
      by (apply IH; [intros y Hy; apply H; now right | exact Ha]).
    lia.
Qed.

(** With positive weights and [rnd] within the total, the loop stops at an
    address of the list, the one whose share of the total [rnd] falls
    in. *)
Lemma wrr_loop_stops l : forall upto address,
  NoDup l ->
  (forall x, x ∈ l -> 0 < mcontent !!! x) ->
  upto < rnd <= upto + wsum mcontent l ->
  let a := wrr_loop mcontent rnd l upto address in
  a ∈ l
  /\ upto + before mcontent l a < rnd
     <= upto + before mcontent l a + mcontent !!! a.
Proof.
  induction l as [| x l IH]; intros upto address Hnd Hpos Hr; simpl.
  - unfold wsum, sum in Hr. simpl in Hr. lia.
  - rewrite wsum_cons in Hr. apply NoDup_cons in Hnd as [Hx Hnd].
    destruct (rnd <=? upto + mcontent !!! x) eqn:E.
    + apply Z.leb_le in E. split; [left |].
      rewrite decide_True by reflexivity. lia.
    + apply Z.leb_gt in E.
      destruct (IH (upto + mcontent !!! x) x Hnd) as [Hin Hb].
      * intros y Hy. apply Hpos. now right.
      * lia.
      * split; [now right |].
        rewrite decide_False by (intros Heq; apply Hx; now rewrite Heq).
        lia.
Qed.

(** Conversely [rnd] within the share of [a] makes the loop stop at [a]. *)
Lemma wrr_loop_hits l : forall upto address a,
  (forall x, x ∈ l -> 0 <= mcontent !!! x) ->
  a ∈ l ->
  upto + before mcontent l a < rnd
    <= upto + before mcontent l a + mcontent !!! a ->
  wrr_loop mcontent rnd l upto address = a.
Proof.
  induction l as [| x l IH]; intros upto address a Hpos Ha Hr;
    [now apply elem_of_nil in Ha |].
  simpl in *. destruct (decide (x = a)) as [-> | Hne].
  - destruct (rnd <=? upto + mcontent !!! a) eqn:E; [reflexivity |].
    apply Z.leb_gt in E. lia.
  - apply elem_of_cons in Ha as [-> | Ha]; [congruence |].
    assert (0 <= before mcontent l a)
      by (apply before_nonneg; intros y Hy; apply Hpos; now right).
    destruct (rnd <=? upto + mcontent !!! x) eqn:E.
    + apply Z.leb_le in E. lia.
    + apply IH; [intros y Hy; apply Hpos; now right | exact Ha | lia].
Qed.

(** Whatever the weights, the loop ends on an address of the list or on
    the one it started with. *)
Lemma wrr_loop_elem l : forall upto address,
  wrr_loop mcontent rnd l upto address ∈ l
  \/ (l = [] /\ wrr_loop mcontent rnd l upto address = address).
Proof.
  induction l as [| x l IH]; intros upto address; simpl; [now right |].
  left. destruct (rnd <=? upto + mcontent !!! x); [left |].
  destruct (IH (upto + mcontent !!! x) x) as [H | [-> H]].
  - now right.
  - simpl. left.
Qed.
End wrr_facts.

Lemma filter_all {A} (P : A -> Prop) `{!forall x, Decision (P x)} (l : list A) :
  Forall P l -> filter P l = l.
Proof.
  induction 1 as [| x l Hx _ IH]; [reflexivity |].
  rewrite filter_cons_True by exact Hx. now rewrite IH.
Qed.

Lemma filter_none {A} (P : A -> Prop) `{!forall x, Decision (P x)} (l : list A) :
  Forall (fun x => ~ P x) l -> filter P l = [].
Proof.
  induction 1 as [| x l Hx _ IH]; [reflexivity |].
  now rewrite filter_cons_False by exact Hx.
Qed.

Section wrr_table.
Variable mcontent : gmap string Z.
Hypothesis weights_positive : forall a wt, mcontent !! a = Some wt -> 0 < wt.

Local Abbreviation addresses := (Py.sorted (dict_keys mcontent)).
Local Abbreviation total := (sum (dict_values mcontent)).

Lemma addresses_elem a : a ∈ addresses <-> is_Some (mcontent !! a).
Proof. rewrite sorted_elem. apply dict_keys_elem. Qed.

Lemma addresses_NoDup : NoDup addresses.
Proof.
  rewrite sorted_perm. apply dict_keys_NoDup.
Qed.

Lemma addresses_positive a : a ∈ addresses -> 0 < mcontent !!! a.
Proof.
  intros [wt H]%addresses_elem.
  rewrite (lookup_total_correct _ _ _ H). eapply weights_positive, H.
Qed.

Lemma addresses_nonneg a : a ∈ addresses -> 0 <= mcontent !!! a.
Proof. intros H%addresses_positive. lia. Qed.

Lemma total_wsum : total = wsum mcontent addresses.
Proof.
  unfold wsum. rewrite dict_values_keys.
  apply sum_perm, fmap_Permutation. symmetry. apply sorted_perm.
Qed.

Lemma wrr_pick_share address r :
  1 <= r <= total ->
  let a := wrr_pick mcontent address r in
  a ∈ addresses
  /\ before mcontent addresses a < r
     <= before mcontent addresses a + mcontent !!! a.
Proof.
  intros Hr.
  destruct (wrr_loop_stops mcontent r addresses 0 address addresses_NoDup
              addresses_positive) as [Hin Hb].
  - rewrite <- total_wsum. lia.
  - unfold wrr_pick. split; [exact Hin | lia].
Qed.

Lemma wrr_pick_count address a wt :
  mcontent !! a = Some wt ->
  length (filter (fun r => wrr_pick mcontent address r = a) (seqZ 1 total))
  = Z.to_nat wt.
Proof.
  intros Ha.
  assert (a ∈ addresses) as Hin by (apply addresses_elem; eauto).
  pose proof (lookup_total_correct _ _ _ Ha) as Hw.
  pose proof (weights_positive _ _ Ha) as Hpos.
  set (lo := before mcontent addresses a).
  assert (0 <= lo) as Hlo
      by (apply before_nonneg; intros; now apply addresses_nonneg).
  assert (lo + wt <= total) as Hhi.
  { rewrite total_wsum, <- Hw.
    apply before_bound; [intros; now apply addresses_nonneg | exact Hin]. }
  replace total with (lo + (wt + (total - lo - wt))) by lia.
  rewrite seqZ_app, seqZ_app, !filter_app by lia.
  rewrite (filter_none _ (seqZ 1 lo)), (filter_all _ (seqZ (1 + lo) wt)),
    filter_none.
  - rewrite app_nil_l, app_nil_r. apply length_seqZ.
  - apply Forall_seqZ. intros r Hr Hp.
    destruct (wrr_pick_share address r) as [_ Hb]; [lia |].
    rewrite Hp, Hw in Hb. fold lo in Hb. lia.
  - apply Forall_seqZ. intros r Hr.
    apply wrr_loop_hits;
      [intros; now apply addresses_nonneg | exact Hin |].
    fold lo. rewrite Hw. lia.
  - apply Forall_seqZ. intros r Hr Hp.
    destruct (wrr_pick_share address r) as [_ Hb]; [lia |].
    rewrite Hp in Hb. fold lo in Hb. lia.
Qed.

Lemma wrr_pick_any_start address address' r :
  1 <= r <= total ->
  wrr_pick mcontent address r = wrr_pick mcontent address' r.
Proof.
  intros Hr. destruct (wrr_pick_share address r Hr) as [Hin Hb].
  symmetry. apply wrr_loop_hits;
    [intros; now apply addresses_nonneg | exact Hin | lia].
Qed.

Lemma wrr_pick_first address r :
  1 <= r <= total ->
  exists earlier later,
    addresses = (earlier ++ wrr_pick mcontent address r :: later)%list
    /\ wsum mcontent earlier < r
       <= wsum mcontent earlier + mcontent !!! wrr_pick mcontent address r.
Proof.
  intros Hr. destruct (wrr_pick_share address r Hr) as [Hin Hb].
  destruct (list_elem_of_split_l _ _ Hin) as (earlier & later & E & Hni).
  exists earlier, later. split; [exact E |].
  rewrite E in Hb at 1 2. rewrite before_prefix in Hb by exact Hni.
  exact Hb.
Qed.

Lemma wrr_draws (w : world) :
  (1 < size mcontent)%nat ->
  exists address r,
    1 <= r <= total
    /\ wrr mcontent w
       = (Return (wrr_pick mcontent address r),
          World (entropy w) (S (draws w))
            (trace w ++ [RandInt 1 total r])).
Proof.
  intros Hsize. unfold wrr.
  destruct (dict_keys mcontent) as [| a0 rest] eqn:Ek.
  { apply dict_keys_nil in Ek. subst mcontent.
    rewrite map_size_empty in Hsize. lia. }
  assert (1 <= total) as Ht.
  { rewrite total_wsum.
    assert (a0 ∈ addresses) as Hin
        by (rewrite sorted_elem, Ek; left).
    pose proof (addresses_positive a0 Hin).
    assert (before mcontent addresses a0 + mcontent !!! a0
            <= wsum mcontent addresses)
      by (apply before_bound; [intros; now apply addresses_nonneg | exact Hin]).
    assert (0 <= before mcontent addresses a0)
      by (apply before_nonneg; intros; now apply addresses_nonneg).
    lia. }
  exists a0, (1 + entropy w (draws w) mod (total - 1 + 1)).
  split.
  - pose proof (Z.mod_pos_bound (entropy w (draws w)) (total - 1 + 1)). lia.
  - unfold bind, ret. simpl.
    replace (1 <? dict_len mcontent) with true
      by (symmetry; apply Z.ltb_lt; unfold dict_len; lia).
    unfold randint.
    replace (total <? 1) with false by (symmetry; apply Z.ltb_ge; lia).
    reflexivity.
Qed.
End wrr_table.

Lemma wrr_single (a : string) (wt : Z) (w : world) :
  wrr {[a := wt]} w = (Return a, w).
Proof.
  unfold wrr, dict_keys, dict_len. rewrite map_to_list_singleton.
  rewrite map_size_singleton. reflexivity.
Qed.

(** C4: a table of one entry gives that entry and draws nothing; a larger
    table with positive weights draws one [r] in [[1, total]] and gives the
    first address, in ascending order of the address strings, at which the
    running sum of the weights reaches [r]; each address is given for
    exactly as many [r] as its weight, and the address is a function of the
    table and [r]. *)
Theorem wrr_selection (mcontent : gmap string Z) :
  (forall a wt w, mcontent = {[a := wt]} -> wrr mcontent w = (Return a, w))
  /\ ((1 < size mcontent)%nat ->
      map_Forall (fun _ wt => 0 < wt) mcontent ->
      let total := sum (dict_values mcontent) in
      let addresses := Py.sorted (dict_keys mcontent) in
      (forall w, exists address r,
          1 <= r <= total
          /\ wrr mcontent w
             = (Return (wrr_pick mcontent address r),
                World (entropy w) (S (draws w))
                  (trace w ++ [RandInt 1 total r])))
      /\ StronglySorted Py.str_le addresses
      /\ NoDup addresses
      /\ (forall a, a ∈ addresses <-> is_Some (mcontent !! a))
      /\ (forall address r, 1 <= r <= total ->
            exists earlier later,
              addresses
              = (earlier ++ wrr_pick mcontent address r :: later)%list
              /\ wsum mcontent earlier < r
                 <= wsum mcontent earlier
                    + mcontent !!! wrr_pick mcontent address r)
      /\ (forall address a wt, mcontent !! a = Some wt ->
            length (filter (fun r => wrr_pick mcontent address r = a)
                      (seqZ 1 total))
            = Z.to_nat wt)
      /\ (forall address address' r, 1 <= r <= total ->
            wrr_pick mcontent address r = wrr_pick mcontent address' r)).
Proof.
  split.
  - intros a wt w ->. apply wrr_single.
  - intros Hsize Hpos total addresses.
    split; [| split; [| split; [| split; [| split; [| split]]]]].
    + intros w. now apply wrr_draws.
    + apply sorted_ascending.
    + now apply addresses_NoDup.
    + intros a. now apply addresses_elem.
    + intros address r Hr. now apply wrr_pick_first.
    + intros address a wt. now apply wrr_pick_count.
    + intros address address' r Hr. now apply wrr_pick_any_start.
Qed.

Lemma wrr_selection_witness :
  length (filter (fun r => wrr_pick table_example "1.1.1.1" r = "2.2.2.2")
            (seqZ 1 100)) = 80%nat.
Proof.
  destruct (wrr_selection table_example) as [_ H].
  destruct H as (_ & _ & _ & _ & _ & Hc & _).
  - vm_compute. lia.
  - apply (bool_decide_unpack _). vm_compute. exact I.
  - apply (Hc "1.1.1.1" "2.2.2.2" 80). reflexivity.
Defined.

(** ** [site] *)

Lemma dict_in_true {V} (k : string) (d : gmap string V) :
  dict_in k d = true <-> is_Some (d !! k).
Proof.
  unfold dict_in. destruct (d !! k); split; intros H; eauto.
  - discriminate.
  - now destruct H.
Qed.

Lemma dict_in_false {V} (k : string) (d : gmap string V) :
  dict_in k d = false <-> d !! k = None.
Proof. unfold dict_in. destruct (d !! k); split; congruence. Qed.

Lemma site_run sites qname qzone qclass qtype w :
  site sites qname qzone qclass qtype w =
  match matched sites qname with
  | None =>
      (Return [], logged w (LogWarning ("No such site: " ++ qname ++ "!")))
  | Some mname =>
      match sites !! mname ≫= (.!! qclass) with
      | None =>
          (Return [],
           logged w
             (LogWarning ("No match for: " ++ mname ++ " " ++ qclass ++ "!")))
      | Some mclass =>
          if String.eqb qtype "ANY" then
            site_loop mclass qzone (Py.sorted (dict_keys mclass)) [] w
          else if dict_in qtype mclass then
            site_loop mclass qzone [qtype] [] w
          else
            (Return [],
             logged w
               (LogWarning ("No match for: " ++ mname ++ " " ++ qclass
                              ++ " " ++ qtype ++ "!")))
      end
  end.
Proof.
  unfold site, matched.
  destruct (dict_in qname sites); simpl.
  - destruct (sites !! qname ≫= (.!! qclass)); [| reflexivity].
    destruct (String.eqb qtype "ANY"); [reflexivity |].
    destruct (dict_in qtype g); reflexivity.
  - destruct (dict_in (wildcard qname) sites); [| reflexivity].
    destruct (sites !! wildcard qname ≫= (.!! qclass)); [| reflexivity].
    destruct (String.eqb qtype "ANY"); [reflexivity |].
    destruct (dict_in qtype g); reflexivity.
Qed.

Lemma wrr_returns_key table w a w' :
  wrr table w = (Return a, w') -> is_Some (table !! a).
Proof.
  unfold wrr, bind.
  destruct (dict_keys table) as [| a0 rest] eqn:Ek; [discriminate |].
  assert (is_Some (table !! a0)) as H0
      by (apply dict_keys_elem; rewrite Ek; left).
  unfold ret at 1. destruct (1 <? dict_len table).
  - destruct (randint 1 (sum (dict_values table)) w) as [[r | e] w1];
      [| discriminate].
    unfold ret. intros [= <- _]. unfold wrr_pick.
    destruct (wrr_loop_elem table r (Py.sorted (dict_keys table)) 0 a0)
      as [H | [_ ->]]; [| exact H0].
    now apply dict_keys_elem, sorted_elem.
  - unfold ret. now intros [= <- _].
Qed.

Lemma wrr_total table w :
  wf_table table -> exists a w', wrr table w = (Return a, w').
Proof.
  intros [Hne Hpos].
  destruct (decide (1 < size table)%nat) as [Hs | Hs].
  - destruct (wrr_draws table Hpos w Hs) as (address & r & _ & H). eauto.
  - unfold wrr, bind.
    destruct (dict_keys table) as [| a0 rest] eqn:Ek;
      [now apply dict_keys_nil in Ek |].
    unfold ret at 1.
    replace (1 <? dict_len table) with false
      by (symmetry; apply Z.ltb_ge; unfold dict_len; lia).
    unfold ret. eauto.
Qed.

Lemma site_answer_inv mclass qzone qtype w ans w' :
  site_answer mclass qzone qtype w = (Return ans, w') ->
  answer_of mclass qzone qtype ans.
Proof.
  unfold site_answer, bind, getitem.
  destruct (mclass !! qtype) as [rs |] eqn:Ers; [| discriminate].
  unfold ret at 1. destruct (rs_content rs) as [c |] eqn:Ec; [| discriminate].
  unfold ret at 1. destruct (c !! "default") as [dflt |] eqn:Ed;
    [| discriminate].
  unfold ret at 1.
  destruct (wrr (default dflt (c !! qzone)) w) as [[a | e] w1] eqn:Ew;
    [| discriminate].
  unfold ret. intros [= <- <-].
  exists rs, c, dflt, w, w1.
  split; [exact Ers |]. split; [exact Ec |]. split; [exact Ed |].
  split; [reflexivity |]. split.
  - unfold default. destruct (rs_ttl rs); reflexivity.
  - simpl. rewrite <- Ew. unfold default. destruct (c !! qzone); reflexivity.
Qed.

Lemma site_answer_total mclass qzone qtype w :
  wf_class mclass -> is_Some (mclass !! qtype) ->
  exists ans w', site_answer mclass qzone qtype w = (Return ans, w').
Proof.
  intros Hwf [rs Ers]. pose proof (Hwf _ _ Ers) as Hrs. simpl in Hrs.
  unfold wf_record in Hrs.
  destruct (rs_content rs) as [c |] eqn:Ec; [| contradiction].
  destruct Hrs as [[dflt Ed] Hc].
  assert (wf_table (default dflt (c !! qzone))) as Ht.
  { destruct (c !! qzone) as [t |] eqn:Ez; simpl; eapply Hc; eassumption. }
  destruct (wrr_total _ w Ht) as (a & w' & Hw).
  exists (qtype, a, default 3600 (rs_ttl rs)), w'.
  unfold site_answer, bind, getitem. rewrite Ers. unfold ret at 1.
  rewrite Ec. unfold ret at 1. rewrite Ed. unfold ret at 1.
  now rewrite Hw.
Qed.

Lemma site_loop_inv mclass qzone qtypes : forall acc w l w',
  site_loop mclass qzone qtypes acc w = (Return l, w') ->
  exists answers,
    l = (acc ++ answers)%list
    /\ Forall2 (answer_of mclass qzone) qtypes answers.
Proof.
  induction qtypes as [| qtype rest IH]; intros acc w l w'; simpl.
  - unfold ret. intros [= <- _]. exists []. now rewrite app_nil_r.
  - unfold bind at 1.
    destruct (site_answer mclass qzone qtype w) as [[ans | e] w1] eqn:Ea;
      [| discriminate].
    intros H. apply IH in H as (answers & -> & HF).
    exists (ans :: answers). split.
    + now rewrite <- app_assoc.
    + constructor; [| exact HF]. eapply site_answer_inv, Ea.
Qed.

Lemma site_loop_total mclass qzone qtypes : forall acc w,
  wf_class mclass ->
  Forall (fun t => is_Some (mclass !! t)) qtypes ->
  exists l w', site_loop mclass qzone qtypes acc w = (Return l, w').
Proof.
  induction qtypes as [| qtype rest IH]; intros acc w Hwf Hq; simpl.
  - unfold ret. eauto.
  - apply Forall_cons in Hq as [Hq Hrest].
    destruct (site_answer_total mclass qzone qtype w Hwf Hq) as (ans & w1 & Ha).
    unfold bind at 1. rewrite Ha. now apply IH.
Qed.

Lemma answer_of_type mclass qzone qtypes answers :
  Forall2 (answer_of mclass qzone) qtypes answers ->
  (fun ans : answer => ans.1.1) <$> answers = qtypes.
Proof.
  induction 1 as [| qtype ans qtypes answers H _ IH]; [reflexivity |].
  rewrite fmap_cons, IH. f_equal.
  destruct H as (rs & c & dflt & w1 & w2 & _ & _ & _ & H & _). exact H.
Qed.

(** C5: for a matched name and class, [qtype = "ANY"] gives one answer for
    each type configured under the class, in ascending order of the type
    keys. *)
Theorem site_any_sorted sites qname qzone qclass mname mclass w :
  matched sites qname = Some mname ->
  sites !! mname ≫= (.!! qclass) = Some mclass ->
  wf_class mclass ->
  exists answers w',
    site sites qname qzone qclass "ANY" w = (Return answers, w')
    /\ let types := (fun ans : answer => ans.1.1) <$> answers in
       types = Py.sorted (dict_keys mclass)
       /\ StronglySorted Py.str_le types
       /\ NoDup types
       /\ (forall t, t ∈ types <-> is_Some (mclass !! t)).
Proof.
  intros Hm Hc Hwf. rewrite site_run, Hm, Hc. simpl.
  destruct (site_loop_total mclass qzone (Py.sorted (dict_keys mclass)) [] w Hwf)
    as (l & w' & Hl).
  { apply Forall_forall. intros t Ht. now apply dict_keys_elem, sorted_elem. }
  exists l, w'. split; [exact Hl |].
  apply site_loop_inv in Hl as (answers & -> & HF). simpl.
  rewrite (answer_of_type _ _ _ _ HF).
  split; [reflexivity |]. split; [apply sorted_ascending |]. split.
  - rewrite sorted_perm. apply dict_keys_NoDup.
  - intros t. rewrite sorted_elem. apply dict_keys_elem.
Qed.

Lemma Forall2_answer_of mclass qzone qtypes answers :
  Forall2 (answer_of mclass qzone) qtypes answers ->
  Forall (fun ans : answer => answer_of mclass qzone ans.1.1 ans) answers.
Proof.
  induction 1 as [| qtype ans qtypes answers H _ IH]; constructor; [| exact IH].
  destruct H as (rs & c & dflt & w1 & w2 & H1 & H2 & H3 & H4 & H5).
  rewrite H4. exists rs, c, dflt, w1, w2. auto.
Qed.

Lemma site_answers sites qname qzone qclass qtype w answers w' :
  site sites qname qzone qclass qtype w = (Return answers, w') ->
  answers = []
  \/ exists mname mclass,
       matched sites qname = Some mname
       /\ sites !! mname ≫= (.!! qclass) = Some mclass
       /\ Forall (fun ans : answer => answer_of mclass qzone ans.1.1 ans)
            answers.
Proof.
  rewrite site_run.
  destruct (matched sites qname) as [mname |] eqn:Em;
    [| intros [= <- _]; now left].
  destruct (sites !! mname ≫= (.!! qclass)) as [mclass |] eqn:Ec;
    [| intros [= <- _]; now left].
  destruct (String.eqb qtype "ANY").
  - intros (l & -> & HF)%site_loop_inv. right. exists mname, mclass.
    split; [reflexivity |]. split; [exact Ec |].
    rewrite app_nil_l. eapply Forall2_answer_of, HF.
  - destruct (dict_in qtype mclass); [| intros [= <- _]; now left].
    intros (l & -> & HF)%site_loop_inv. right. exists mname, mclass.
    split; [reflexivity |]. split; [exact Ec |].
    rewrite app_nil_l. eapply Forall2_answer_of, HF.
Qed.

(** C6: the ttl of an answer is the record set's [ttl], or 3600 when it has
    none, and its address is chosen from the content of the requested zone,
    or from the [default] content when the zone has none. *)
Theorem site_ttl_and_table sites qname qzone qclass qtype mname mclass w :
  matched sites qname = Some mname ->
  sites !! mname ≫= (.!! qclass) = Some mclass ->
  (forall answers w',
      site sites qname qzone qclass qtype w = (Return answers, w') ->
      Forall (fun ans : answer => answer_of mclass qzone ans.1.1 ans) answers)
  /\ (forall rs c dflt,
        qtype <> "ANY" ->
        mclass !! qtype = Some rs ->
        rs_content rs = Some c ->
        c !! "default" = Some dflt ->
        site sites qname qzone qclass qtype w
        = (let! address :=
             wrr (match c !! qzone with Some t => t | None => dflt end) in
           ret [(qtype, address,
                 match rs_ttl rs with Some t => t | None => 3600 end)]) w)
  /\ (wf_class mclass ->
      qtype = "ANY" \/ is_Some (mclass !! qtype) ->
      exists answers w',
        site sites qname qzone qclass qtype w = (Return answers, w')).
Proof.
  intros Hm Hc. split; [| split].
  - intros answers w' H.
    destruct (site_answers _ _ _ _ _ _ _ _ H)
      as [-> | (mname' & mclass' & Hm' & Hc' & HF)]; [constructor |].
    rewrite Hm in Hm'. injection Hm' as <-. rewrite Hc in Hc'.
    now injection Hc' as <-.
  - intros rs c dflt Hany Hrs Hcont Hd. rewrite site_run, Hm, Hc.
    replace (String.eqb qtype "ANY") with false
      by (symmetry; now apply String.eqb_neq).
    replace (dict_in qtype mclass) with true
      by (symmetry; apply dict_in_true; eauto).
    simpl. unfold site_answer, bind, getitem. rewrite Hrs. unfold ret at 1.
    rewrite Hcont. unfold ret at 1. rewrite Hd. unfold ret at 1.
    destruct (c !! qzone) as [t |], (rs_ttl rs) as [ttl |]; simpl;
      match goal with
      | |- context [wrr ?t w] => destruct (wrr t w) as [[a | e] w1]
      end; reflexivity.
  - intros Hwf Hq. rewrite site_run, Hm, Hc.
    destruct (String.eqb qtype "ANY") eqn:E.
    + apply site_loop_total; [exact Hwf |].
      apply Forall_forall. intros t Ht. now apply dict_keys_elem, sorted_elem.
    + destruct Hq as [-> | Hq]; [discriminate |].
      replace (dict_in qtype mclass) with true
        by (symmetry; now apply dict_in_true).
      apply site_loop_total; [exact Hwf |]. now repeat constructor.
Qed.

Lemma find_absent (s : string) (c : ascii) :
  Py.contains s c = false -> Py.find s c = -1.
Proof.
  induction s as [| a r IH]; simpl; [reflexivity |].
  destruct (Ascii.eqb a c); simpl; [discriminate |].
  intros H. now rewrite IH.
Qed.

Lemma find_first (label rest : string) (c : ascii) :
  Py.contains label c = false ->
  Py.find (label ++ String c rest) c = Py.len label.
Proof.
  unfold Py.len. induction label as [| a r IH]; simpl.
  - intros _. now rewrite Ascii.eqb_refl.
  - destruct (Ascii.eqb a c); simpl; [discriminate |]. intros H.
    rewrite IH by exact H.
    replace (Z.of_nat (String.length r) <? 0) with false
      by (symmetry; apply Z.ltb_ge; lia).
    lia.
Qed.

Lemma drop_app (p s : string) : Py.drop (String.length p) (p ++ s) = s.
Proof. induction p as [| a p IH]; [now destruct s | exact IH]. Qed.

Lemma length_app (p s : string) :
  String.length (p ++ s) = (String.length p + String.length s)%nat.
Proof. induction p as [| a p IH]; simpl; [reflexivity | now rewrite IH]. Qed.

(** With a dot in the name, the wildcard replaces the leftmost label. *)
Lemma wildcard_dotted (label rest : string) :
  Py.contains label "."%char = false ->
  wildcard (label ++ String "."%char rest)
  = String "*"%char (String "."%char rest).
Proof.
  intros H. unfold wildcard. rewrite find_first by exact H.
  unfold Py.slice_from, Py.len.
  replace (Z.of_nat (String.length label) <? 0) with false
    by (symmetry; apply Z.ltb_ge; lia).
  rewrite length_app, Z.min_l by lia. rewrite Nat2Z.id, drop_app.
  reflexivity.
Qed.

(** Without a dot, [find] answers [-1] and the slice is the last
    character. *)
Lemma wildcard_dotless (p : string) (c : ascii) :
  Py.contains (p ++ String c "") "."%char = false ->
  wildcard (p ++ String c "") = String "*"%char (String c "").
Proof.
  intros H. unfold wildcard. rewrite find_absent by exact H.
  unfold Py.slice_from, Py.len.
  change (-1 <? 0) with true. cbv iota.
  rewrite length_app. simpl String.length.
  replace (Z.to_nat (Z.max 0 (-1 + Z.of_nat (String.length p + 1))))
    with (String.length p) by lia.
  now rewrite drop_app.
Qed.

(** The three misses, on the key that [site] itself tries: no literal key
    and no key [wildcard qname], no entry for the class under the matched
    name, or a type that is neither ["ANY"] nor configured.  [site] returns
    the empty list and raises nothing. *)
Lemma site_no_match sites qname qzone qclass qtype w :
  (forall label rest,
      Py.contains label "."%char = false ->
      wildcard (label ++ String "."%char rest)
      = String "*"%char (String "."%char rest))
  /\ (sites !! qname = None -> sites !! wildcard qname = None ->
      site sites qname qzone qclass qtype w
      = (Return [], logged w (LogWarning ("No such site: " ++ qname ++ "!"))))
  /\ (forall mname,
        matched sites qname = Some mname ->
        sites !! mname ≫= (.!! qclass) = None ->
        site sites qname qzone qclass qtype w
        = (Return [],
           logged w
             (LogWarning ("No match for: " ++ mname ++ " " ++ qclass ++ "!"))))
  /\ (forall mname mclass,
        matched sites qname = Some mname ->
        sites !! mname ≫= (.!! qclass) = Some mclass ->
        qtype <> "ANY" ->
        mclass !! qtype = None ->
        site sites qname qzone qclass qtype w
        = (Return [],
           logged w
             (LogWarning ("No match for: " ++ mname ++ " " ++ qclass ++ " "
                            ++ qtype ++ "!")))).
Proof.
  split; [apply wildcard_dotted |]. split; [| split].
  - intros H1 H2. rewrite site_run. unfold matched.
    apply dict_in_false in H1, H2. now rewrite H1, H2.
  - intros mname Hm Hc. now rewrite site_run, Hm, Hc.
  - intros mname mclass Hm Hc Hany Ht. rewrite site_run, Hm, Hc.
    replace (String.eqb qtype "ANY") with false
      by (symmetry; now apply String.eqb_neq).
    apply dict_in_false in Ht. now rewrite Ht.
Qed.

Lemma class_example_wf : wf_class class_example.
Proof. apply (bool_decide_unpack _). vm_compute. exact I. Qed.

Lemma site_any_sorted_witness :
  exists answers w',
    site sites_example "www.example.com" "eu" "IN" "ANY" world_example
    = (Return answers, w')
    /\ (fun ans : answer => ans.1.1) <$> answers = ["A"; "MX"].
Proof.
  destruct (site_any_sorted sites_example "www.example.com" "eu" "IN"
              "www.example.com" class_example world_example
              eq_refl eq_refl class_example_wf)
    as (answers & w' & H & Ht & _).
  exists answers, w'. split; [exact H |]. rewrite Ht. reflexivity.
Defined.

Lemma site_ttl_and_table_witness :
  site sites_example "www.example.com" "us" "IN" "A" world_example
  = (Return [("A", "3.3.3.3", 3600)], world_example)
  /\ site sites_example "www.example.com" "eu" "IN" "MX" world_example
     = (Return [("MX", "10 mail.example.com", 60)], world_example).
Proof.
  destruct (site_ttl_and_table sites_example "www.example.com" "us" "IN" "A"
              "www.example.com" class_example world_example eq_refl eq_refl)
    as (_ & HA & _).
  destruct (site_ttl_and_table sites_example "www.example.com" "eu" "IN" "MX"
              "www.example.com" class_example world_example eq_refl eq_refl)
    as (_ & HM & _).
  split.
  - rewrite (HA record_A_example content_A_example table_example);
      [reflexivity | discriminate | reflexivity | reflexivity | reflexivity].
  - rewrite (HM record_MX_example content_MX_example
               (<["10 mail.example.com" := 1]> ∅));
      [reflexivity | discriminate | reflexivity | reflexivity | reflexivity].
Defined.

Lemma site_no_match_witness :
  site sites_example "example" "eu" "IN" "A" world_example
  = (Return [], logged world_example (LogWarning "No such site: example!"))
  /\ site sites_example "www.example.com" "eu" "CH" "A" world_example
     = (Return [],
        logged world_example
          (LogWarning "No match for: www.example.com CH!"))
  /\ site sites_example "ftp.example.com" "eu" "IN" "TXT" world_example
     = (Return [],
        logged world_example
          (LogWarning "No match for: *.example.com IN TXT!")).
Proof.
  split; [| split].
  - destruct (site_no_match sites_example "example" "eu" "IN" "A"
                world_example) as (_ & H & _).
    apply H; reflexivity.
  - destruct (site_no_match sites_example "www.example.com" "eu" "CH" "A"
                world_example) as (_ & _ & H & _).
    apply (H "www.example.com"); reflexivity.
  - destruct (site_no_match sites_example "ftp.example.com" "eu" "IN" "TXT"
                world_example) as (_ & _ & _ & H).
    apply (H "*.example.com" class_wildcard_example);
      [reflexivity | reflexivity | discriminate | reflexivity].
Defined.

(** With a dot in the name the key that [site] tries is the wildcard of the
    specification. *)
Lemma wildcard_with_dot (qname : string) :
  Py.contains qname "."%char = true -> wildcard qname = spec_wildcard qname.
Proof.
  unfold wildcard, spec_wildcard, Py.slice_from. intros H. f_equal.
  induction qname as [| a r IH]; [discriminate |].
  simpl in *. destruct (Ascii.eqb a "."%char) eqn:E; [reflexivity |].
  simpl in H. specialize (IH H).
  assert (0 <= Py.find r "."%char <= Py.len r) as Hf.
  { clear IH. unfold Py.len. induction r as [| b r IHr]; [discriminate |].
    simpl in *. destruct (Ascii.eqb b "."%char); [lia |].
    simpl in H. specialize (IHr H).
    replace (Py.find r "."%char <? 0) with false
      by (symmetry; apply Z.ltb_ge; lia).
    lia. }
  replace (Py.find r "."%char <? 0) with false in *
    by (symmetry; apply Z.ltb_ge; lia).
  replace (Py.find r "."%char + 1 <? 0) with false
    by (symmetry; apply Z.ltb_ge; lia).
  unfold Py.len in *. simpl String.length.
  rewrite Z.min_l in * by lia.
  replace (Z.to_nat (Py.find r "."%char + 1))
    with (S (Z.to_nat (Py.find r "."%char))) by lia.
  exact IH.
Qed.


Lemma zone_of_geo_reachable zones dz g v :
  zones !! "default" = Some dz ->
  zone_of_geo zones dz g = Return v -> reachable zones v.
Proof.
  intros Hd. unfold zone_of_geo, zget.
  destruct (country_iso_code g) as [c |]; simpl.
  - destruct (zones !! c) as [[s | d] |] eqn:Ec; simpl.
    + intros [= <-]. right. left. now exists c, s.
    + destruct (d !! "default") as [dflt |] eqn:Edf; [| discriminate].
      intros [= <-]. right. right.
      destruct (subdivision_iso_code g) as [r |]; simpl.
      * destruct (d !! r) as [x |] eqn:Er; simpl.
        -- now exists c, d, r.
        -- now exists c, d, "default".
      * now exists c, d, "default".
    + destruct dz as [s | d]; [| discriminate]. intros [= <-]. now left.
  - destruct dz as [s | d]; [| discriminate]. intros [= <-]. now left.
Qed.

Lemma zone_reachable georeader zones remoteip edns w v w' :
  zone georeader zones remoteip edns w = (Return v, w') -> reachable zones v.
Proof.
  destruct (zones !! "default") as [dz |] eqn:Hd.
  - rewrite (zone_run _ _ _ _ dz) by exact Hd. cbv zeta.
    assert (forall a, zone_geolocate georeader zones dz a w = (Return v, w') ->
                      reachable zones v) as G.
    { intros a. rewrite zone_geolocate_run.
      destruct (georeader a) as [g | e].
      - intros [= H _]. eapply zone_of_geo_reachable; eassumption.
      - destruct e; try discriminate. intros [= <- _]. now left. }
    destruct (reserved (hd "" (Py.split edns "/"%char))); [| apply G].
    destruct (reserved remoteip); [| apply G].
    intros [= <- _]. now left.
  - unfold zone. rewrite (bind_raise _ _ w w (KeyError (Some "default")))
      by now apply getitem_None.
    discriminate.
Qed.

Lemma zone_total georeader zones remoteip edns dz w :
  zones !! "default" = Some (ZStr dz) ->
  (forall c d, zones !! c = Some (ZDict d) -> is_Some (d !! "default")) ->
  (forall a e, georeader a = Raise e -> e = AddressNotFoundError) ->
  exists v w', zone georeader zones remoteip edns w = (Return v, w').
Proof.
  intros Hd Hwf Hgeo. rewrite (zone_run _ _ _ _ (ZStr dz)) by exact Hd.
  cbv zeta.
  assert (forall a, exists v w',
             zone_geolocate georeader zones (ZStr dz) a w = (Return v, w'))
    as G.
  { intros a. rewrite zone_geolocate_run.
    destruct (georeader a) as [g | e] eqn:Eg.
    - unfold zone_of_geo, zget.
      destruct (country_iso_code g) as [c |]; simpl; [| eauto].
      destruct (zones !! c) as [[s | d] |] eqn:Ec; simpl; [eauto | | eauto].
      destruct (Hwf c d Ec) as [dflt ->]. eauto.
    - rewrite (Hgeo a e Eg). eauto. }
  destruct (reserved (hd "" (Py.split edns "/"%char))); [| apply G].
  destruct (reserved remoteip); [eauto | apply G].
Qed.

Lemma answer_of_key mclass qzone qtype ans :
  answer_of mclass qzone qtype ans ->
  exists rs c dflt,
    mclass !! qtype = Some rs
    /\ rs_content rs = Some c
    /\ c !! "default" = Some dflt
    /\ is_Some
         (match c !! qzone with Some t => t | None => dflt end !! ans.1.2).
Proof.
  intros (rs & c & dflt & w1 & w2 & H1 & H2 & H3 & _ & _ & H6).
  exists rs, c, dflt. repeat split; try assumption.
  eapply wrr_returns_key, H6.
Qed.

(** C9: every address [site] returns is a key of the weight table chosen
    for its record type, and the zone [zone] returns is a value of the zones
    dictionary: the root default, a country's string, or an entry or the
    default of a country's dictionary.  On well-formed configurations both
    functions do return. *)
Theorem round_trip :
  (forall sites qname qzone qclass qtype w answers w',
      site sites qname qzone qclass qtype w = (Return answers, w') ->
      forall ans, ans ∈ answers ->
        exists mname mclass rs c dflt,
          matched sites qname = Some mname
          /\ sites !! mname ≫= (.!! qclass) = Some mclass
          /\ mclass !! ans.1.1 = Some rs
          /\ rs_content rs = Some c
          /\ c !! "default" = Some dflt
          /\ is_Some
               (match c !! qzone with Some t => t | None => dflt end
                  !! ans.1.2))
  /\ (forall georeader zones remoteip edns w v w',
         zone georeader zones remoteip edns w = (Return v, w') ->
         reachable zones v)
  /\ (forall sites qname qzone qclass qtype w mname mclass,
         matched sites qname = Some mname ->
         sites !! mname ≫= (.!! qclass) = Some mclass ->
         wf_class mclass ->
         exists answers w',
           site sites qname qzone qclass qtype w = (Return answers, w'))
  /\ (forall georeader zones remoteip edns dz w,
         zones !! "default" = Some (ZStr dz) ->
         (forall c d, zones !! c = Some (ZDict d) -> is_Some (d !! "default")) ->
         (forall a e, georeader a = Raise e -> e = AddressNotFoundError) ->
         exists v w', zone georeader zones remoteip edns w = (Return v, w')).
Proof.
  split; [| split; [| split]].
  - intros sites qname qzone qclass qtype w answers w' H ans Hin.
    destruct (site_answers _ _ _ _ _ _ _ _ H)
      as [-> | (mname & mclass & Hm & Hc & HF)];
      [now apply elem_of_nil in Hin |].
    rewrite Forall_forall in HF.
    destruct (answer_of_key _ _ _ _ (HF ans Hin))
      as (rs & c & dflt & H1 & H2 & H3 & H4).
    exists mname, mclass, rs, c, dflt.
    split; [exact Hm |]. split; [exact Hc |]. split; [exact H1 |].
    split; [exact H2 |]. split; [exact H3 | exact H4].
  - apply zone_reachable.
  - intros sites qname qzone qclass qtype w mname mclass Hm Hc Hwf.
    rewrite site_run, Hm, Hc.
    destruct (String.eqb qtype "ANY").
    + apply site_loop_total; [exact Hwf |].
      apply Forall_forall. intros t Ht. now apply dict_keys_elem, sorted_elem.
    + destruct (dict_in qtype mclass) eqn:E; [| unfold logged; eauto].
      apply site_loop_total; [exact Hwf |].
      repeat constructor. now apply dict_in_true.
  - apply zone_total.
Qed.

Lemma round_trip_witness :
  reachable zones_example (ZStr "us-west")
  /\ exists answers w',
       site sites_example "ftp.example.com" "eu" "IN" "A" world_example
       = (Return answers, w').
Proof.
  destruct round_trip as (_ & Hz & Hs & _). split.
  - apply (Hz georeader_example zones_example "8.8.8.8" "0.0.0.0/8"
             world_example (ZStr "us-west")
             (logged world_example (CityLookup "8.8.8.8"))).
    reflexivity.
  - apply (Hs sites_example "ftp.example.com" "eu" "IN" "A" world_example
             "*.example.com" class_wildcard_example);
      [reflexivity | reflexivity |].
    apply (bool_decide_unpack _). vm_compute. exact I.
Defined.

(** C10: for a name without a dot that is no literal key, the wildcard key
    that [site] tries is ["*"] followed by the last character of the name:
    [find] answers [-1] and the slice [qname[-1:]] is that character. *)
Theorem site_wildcard_without_dot sites (p : string) (c : ascii)
    qzone qclass qtype w :
  let qname := p ++ String c "" in
  let key := String "*"%char (String c "") in
  Py.contains qname "."%char = false ->
  sites !! qname = None ->
  Py.find qname "."%char = -1
  /\ wildcard qname = key
  /\ matched sites qname = (if dict_in key sites then Some key else None)
  /\ (is_Some (sites !! key) ->
      site sites qname qzone qclass qtype w
      = site sites key qzone qclass qtype w)
  /\ (sites !! key = None ->
      site sites qname qzone qclass qtype w
      = (Return [], logged w (LogWarning ("No such site: " ++ qname ++ "!")))).
Proof.
  intros qname key Hdot Hlit.
  pose proof (wildcard_dotless p c Hdot) as Hw. fold qname key in Hw.
  assert (matched sites qname = if dict_in key sites then Some key else None)
    as Hm.
  { unfold matched. apply dict_in_false in Hlit. now rewrite Hlit, Hw. }
  split; [now apply find_absent |]. split; [exact Hw |]. split; [exact Hm |].
  split.
  - intros Hk. rewrite !site_run, Hm. apply dict_in_true in Hk.
    rewrite Hk. unfold matched. now rewrite Hk.
  - intros Hk. rewrite site_run, Hm. apply dict_in_false in Hk.
    now rewrite Hk.
Qed.

Lemma site_wildcard_without_dot_witness :
  wildcard "localhost" = "*t"
  /\ site sites_dotless_example "localhost" "eu" "IN" "A" world_example
     = (Return [("A", "1.1.1.1", 3600)], world_example).
Proof.
  destruct (site_wildcard_without_dot sites_dotless_example "localhos" "t"%char
              "eu" "IN" "A" world_example eq_refl eq_refl)
    as (_ & Hw & _ & Hs & _).
  split; [exact Hw |].
  etransitivity; [apply Hs; now eexists | reflexivity].
Defined.

(** * Further properties of the module *)

(** ** [zone] *)

(** X1: without a ['default'] key [zone] raises [KeyError] on its first
    line: nothing is looked up and nothing is logged. *)
Theorem zone_missing_default georeader zones remoteip edns w :
  zones !! "default" = None ->
  zone georeader zones remoteip edns w
  = (Raise (KeyError (Some "default")), w).
Proof.
  intros H. unfold zone. apply bind_raise. now apply getitem_None.
Qed.

Lemma zone_missing_default_witness :
  zone georeader_example ∅ "8.8.8.8" "0.0.0.0/8" world_example
  = (Raise (KeyError (Some "default")), world_example).
Proof. apply zone_missing_default. reflexivity. Defined.

(** X2: the default EDNS argument ['0.0.0.0/8'] is reserved, so a call that
    leaves it out decides on the remote address alone. *)
Theorem zone_without_edns georeader zones remoteip dz w :
  zones !! "default" = Some dz ->
  zone georeader zones remoteip zone_default_edns w
  = if reserved remoteip then
      (Return dz, logged w (LogInfo ("Reserved address: " ++ remoteip ++ "!")))
    else zone_geolocate georeader zones dz remoteip w.
Proof. intros H. now rewrite (zone_run _ _ _ _ dz) by exact H. Qed.

Lemma zone_without_edns_witness :
  (zone georeader_example zones_example "5.5.5.5" zone_default_edns
     world_example).1 = Return (ZStr "eu").
Proof.
  rewrite (zone_without_edns georeader_example zones_example "5.5.5.5"
             (ZStr "eu") world_example eq_refl).
  reflexivity.
Defined.

(** X3: whatever it is given, [zone] makes at most one GeoIP lookup, draws
    no random number and leaves the random source alone. *)
Theorem zone_effects georeader zones remoteip edns w :
  let w' := (zone georeader zones remoteip edns w).2 in
  entropy w' = entropy w
  /\ draws w' = draws w
  /\ exists evs, trace w' = (trace w ++ evs)%list
                 /\ (length (lookups evs) <= 1)%nat.
Proof.
  destruct (zones !! "default") as [dz |] eqn:Hd.
  - rewrite (zone_run _ _ _ _ dz) by exact Hd. cbv zeta.
    assert (forall a,
               let w' := (zone_geolocate georeader zones dz a w).2 in
               entropy w' = entropy w /\ draws w' = draws w
               /\ exists evs, trace w' = (trace w ++ evs)%list
                              /\ (length (lookups evs) <= 1)%nat) as G.
    { intros a. cbv zeta. rewrite zone_geolocate_run.
      destruct (georeader a) as [g | e]; [| destruct e]; simpl;
        (split; [reflexivity |]; split; [reflexivity |]);
        try (exists [CityLookup a]; split; [reflexivity | simpl; lia]).
      exists [CityLookup a;
              LogWarning ("Address not found in GeoIP database: " ++ a ++ "!")].
      split; [now rewrite <- app_assoc | simpl; lia]. }
    destruct (reserved (hd "" (Py.split edns "/"%char))); [| apply G].
    destruct (reserved remoteip); [| apply G].
    simpl. split; [reflexivity |]. split; [reflexivity |].
    exists [LogInfo ("Reserved address: " ++ remoteip ++ "!")].
    split; [reflexivity | simpl; lia].
  - rewrite zone_missing_default by exact Hd. simpl.
    split; [reflexivity |]. split; [reflexivity |].
    exists []. split; [now rewrite app_nil_r | simpl; lia].
Qed.

(** X4: a country dictionary without a ['default'] key makes [zone] raise
    [KeyError] even when the subdivision has an entry of its own, since
    [zones[country]['default']] is read before the entry is looked up. *)
Theorem zone_region_without_default georeader zones remoteip edns dz w a c d g :
  zones !! "default" = Some dz ->
  geolocated remoteip edns a ->
  georeader a = Return g ->
  country_iso_code g = Some c ->
  zones !! c = Some (ZDict d) ->
  d !! "default" = None ->
  zone georeader zones remoteip edns w
  = (Raise (KeyError (Some "default")), logged w (CityLookup a)).
Proof.
  intros Hd G Hg Hc Hz Hn.
  rewrite (zone_geolocated _ _ _ _ dz a) by assumption.
  rewrite zone_geolocate_run, Hg. unfold zone_of_geo, zget.
  rewrite Hc. simpl. rewrite Hz. simpl. now rewrite Hn.
Qed.

Lemma zone_region_without_default_witness :
  (zone georeader_example zones_no_region_default "8.8.8.8" "0.0.0.0/8"
     world_example).1 = Raise (KeyError (Some "default")).
Proof.
  rewrite (zone_region_without_default georeader_example
             zones_no_region_default "8.8.8.8" "0.0.0.0/8" (ZStr "eu")
             world_example "8.8.8.8" "US" (<["CA" := ZStr "us-west"]> ∅)
             (Geo (Some "US") (Some "CA")));
    try reflexivity.
  right. repeat split; reflexivity.
Defined.

(** ** [site] *)

Lemma site_single sites qname qzone qclass qtype mname mclass w :
  matched sites qname = Some mname ->
  sites !! mname ≫= (.!! qclass) = Some mclass ->
  qtype <> "ANY" ->
  is_Some (mclass !! qtype) ->
  site sites qname qzone qclass qtype w
  = (let! a := site_answer mclass qzone qtype in ret [a]) w.
Proof.
  intros Hm Hc Hany Hq. rewrite site_run, Hm, Hc.
  replace (String.eqb qtype "ANY") with false
    by (symmetry; now apply String.eqb_neq).
  replace (dict_in qtype mclass) with true
    by (symmetry; now apply dict_in_true).
  reflexivity.
Qed.

(** X5: a content without a ['default'] zone makes [site] raise [KeyError]
    even when the requested zone has a table of its own: the fallback
    argument of [get] is evaluated first. *)
Theorem site_content_without_default
    sites qname qzone qclass qtype mname mclass rs c w :
  matched sites qname = Some mname ->
  sites !! mname ≫= (.!! qclass) = Some mclass ->
  qtype <> "ANY" ->
  mclass !! qtype = Some rs ->
  rs_content rs = Some c ->
  c !! "default" = None ->
  site sites qname qzone qclass qtype w
  = (Raise (KeyError (Some "default")), w).
Proof.
  intros Hm Hc Hany Hrs Hcont Hd.
  rewrite (site_single _ _ _ _ _ mname mclass) by eauto.
  unfold site_answer, bind, getitem. rewrite Hrs. unfold ret at 1.
  rewrite Hcont. unfold ret at 1. now rewrite Hd.
Qed.

Lemma site_content_without_default_witness :
  site sites_no_default_example "www.example.com" "us" "IN" "A" world_example
  = (Raise (KeyError (Some "default")), world_example).
Proof.
  apply (site_content_without_default sites_no_default_example
           "www.example.com" "us" "IN" "A" "www.example.com"
           class_no_default_example
           (RecordSet None (Some (<["us" := <["3.3.3.3" := 100]> ∅]> ∅)))
           (<["us" := <["3.3.3.3" := 100]> ∅]> ∅));
    try reflexivity.
  discriminate.
Defined.

(** X6: an empty weight table makes [site] raise [IndexError]. *)
Theorem site_empty_table sites qname qzone qclass qtype mname mclass rs c dflt w :
  matched sites qname = Some mname ->
  sites !! mname ≫= (.!! qclass) = Some mclass ->
  qtype <> "ANY" ->
  mclass !! qtype = Some rs ->
  rs_content rs = Some c ->
  c !! "default" = Some dflt ->
  match c !! qzone with Some t => t | None => dflt end = ∅ ->
  site sites qname qzone qclass qtype w = (Raise IndexError, w).
Proof.
  intros Hm Hc Hany Hrs Hcont Hd He.
  destruct (site_ttl_and_table sites qname qzone qclass qtype mname mclass w
              Hm Hc) as (_ & H & _).
  rewrite (H rs c dflt Hany Hrs Hcont Hd), He.
  unfold bind, wrr, bind, dict_keys. now rewrite map_to_list_empty.
Qed.

Lemma site_empty_table_witness :
  site sites_empty_table_example "www.example.com" "eu" "IN" "A" world_example
  = (Raise IndexError, world_example).
Proof.
  apply (site_empty_table sites_empty_table_example "www.example.com" "eu"
           "IN" "A" "www.example.com" class_empty_table_example
           (RecordSet None (Some (<["default" := ∅]> ∅)))
           (<["default" := ∅]> ∅) ∅);
    try reflexivity.
  discriminate.
Defined.

(** X7: with more than one address and weights that sum to less than one,
    the draw has an empty range and the weighted choice raises
    [ValueError]. *)
Theorem wrr_empty_range (mcontent : gmap string Z) (w : world) :
  (1 < size mcontent)%nat ->
  sum (dict_values mcontent) < 1 ->
  wrr mcontent w = (Raise ValueError, w).
Proof.
  intros Hs Ht. unfold wrr, bind.
  destruct (dict_keys mcontent) as [| a0 rest] eqn:Ek.
  { apply dict_keys_nil in Ek. subst mcontent.
    rewrite map_size_empty in Hs. lia. }
  unfold ret at 1.
  replace (1 <? dict_len mcontent) with true
    by (symmetry; apply Z.ltb_lt; unfold dict_len; lia).
  unfold randint.
  replace (sum (dict_values mcontent) <? 1) with true
    by (symmetry; now apply Z.ltb_lt).
  reflexivity.
Qed.

Lemma wrr_empty_range_witness :
  wrr table_zero_example world_example = (Raise ValueError, world_example).
Proof.
  apply wrr_empty_range.
  - vm_compute. lia.
  - vm_compute. reflexivity.
Defined.

(** Whatever the weights, a draw within the total makes the loop stop
    inside the share of the address it returns. *)
Lemma wrr_loop_breaks mcontent rnd l : forall upto address,
  NoDup l ->
  upto < rnd <= upto + wsum mcontent l ->
  let a := wrr_loop mcontent rnd l upto address in
  a ∈ l
  /\ upto + before mcontent l a < rnd
     <= upto + before mcontent l a + mcontent !!! a.
Proof.
  induction l as [| x l IH]; intros upto address Hnd Hr; simpl.
  - unfold wsum, sum in Hr. simpl in Hr. lia.
  - rewrite wsum_cons in Hr. apply NoDup_cons in Hnd as [Hx Hnd].
    destruct (rnd <=? upto + mcontent !!! x) eqn:E.
    + apply Z.leb_le in E. split; [left |].
      rewrite decide_True by reflexivity. lia.
    + apply Z.leb_gt in E.
      destruct (IH (upto + mcontent !!! x) x Hnd) as [Hin Hb]; [lia |].
      split; [now right |].
      rewrite decide_False by (intros Heq; apply Hx; now rewrite Heq).
      lia.
Qed.

(** X8: when a table of more than one address yields an address, that
    address is a key with a positive weight, whatever the other weights
    are: entries of weight zero or less are never chosen. *)
Theorem wrr_chosen_weight_positive (mcontent : gmap string Z) w a w' :
  (1 < size mcontent)%nat ->
  wrr mcontent w = (Return a, w') ->
  exists wt, mcontent !! a = Some wt /\ 0 < wt.
Proof.
  intros Hs H.
  destruct (wrr_returns_key _ _ _ _ H) as [wt Hwt]. exists wt.
  split; [exact Hwt |]. rewrite <- (lookup_total_correct _ _ _ Hwt).
  revert H. unfold wrr, bind.
  destruct (dict_keys mcontent) as [| a0 rest] eqn:Ek; [discriminate |].
  unfold ret at 1.
  replace (1 <? dict_len mcontent) with true
    by (symmetry; apply Z.ltb_lt; unfold dict_len; lia).
  unfold randint.
  destruct (sum (dict_values mcontent) <? 1) eqn:Et; [discriminate |].
  apply Z.ltb_ge in Et. unfold ret. intros [= <- _].
  pose proof (Z.mod_pos_bound (entropy w (draws w))
                (sum (dict_values mcontent) - 1 + 1)).
  destruct (wrr_loop_breaks mcontent
              (1 + entropy w (draws w) mod (sum (dict_values mcontent) - 1 + 1))
              (Py.sorted (dict_keys mcontent)) 0 a0) as [_ Hb].
  - rewrite sorted_perm. apply dict_keys_NoDup.
  - replace (wsum mcontent (Py.sorted (dict_keys mcontent)))
      with (sum (dict_values mcontent)); [lia |].
    unfold wsum. rewrite dict_values_keys. apply sum_perm, fmap_Permutation.
    symmetry. apply sorted_perm.
  - unfold wrr_pick. lia.
Qed.

Lemma wrr_chosen_weight_positive_witness :
  exists wt, table_mixed_example !! "2.2.2.2" = Some wt /\ 0 < wt.
Proof.
  apply (wrr_chosen_weight_positive table_mixed_example world_example
           "2.2.2.2"
           (World (entropy world_example) 1 [RandInt 1 5 1])).
  - vm_compute. lia.
  - reflexivity.
Defined.

(** X9: a literal key wins over the wildcard: when the name is a key, an
    entry under its wildcard changes nothing. *)
Theorem site_literal_first sites qname qzone qclass qtype w entry :
  is_Some (sites !! qname) ->
  wildcard qname <> qname ->
  site (<[wildcard qname := entry]> sites) qname qzone qclass qtype w
  = site sites qname qzone qclass qtype w.
Proof.
  intros Hq Hne. rewrite !site_run. unfold matched.
  assert (dict_in qname (<[wildcard qname := entry]> sites) = true) as ->
      by (apply dict_in_true; now rewrite lookup_insert_ne).
  apply dict_in_true in Hq as ->.
  now rewrite lookup_insert_ne.
Qed.

Lemma site_literal_first_witness :
  site (<["*.example.com" := ∅]> sites_example) "www.example.com" "us" "IN"
    "A" world_example
  = (Return [("A", "3.3.3.3", 3600)], world_example).
Proof.
  etransitivity.
  - apply (site_literal_first sites_example "www.example.com" "us" "IN" "A"
             world_example ∅).
    + now eexists.
    + discriminate.
  - reflexivity.
Defined.

Lemma lookups_app (l1 l2 : list event) :
  lookups (l1 ++ l2) = (lookups l1 ++ lookups l2)%list.
Proof.
  induction l1 as [| e l1 IH]; [reflexivity |].
  destruct e; simpl; now rewrite IH.
Qed.

Lemma quiet_refl w n : quiet w w n.
Proof.
  split; [reflexivity |]. split; [lia |].
  exists []. split; [now rewrite app_nil_r | reflexivity].
Qed.

Lemma quiet_trans w w1 w2 n m :
  quiet w w1 n -> quiet w1 w2 m -> quiet w w2 (n + m).
Proof.
  intros (E1 & D1 & evs1 & T1 & L1) (E2 & D2 & evs2 & T2 & L2).
  split; [congruence |]. split; [lia |].
  exists (evs1 ++ evs2)%list. split.
  - now rewrite T2, T1, app_assoc.
  - now rewrite lookups_app, L1, L2.
Qed.

Lemma wrr_quiet table w : quiet w (wrr table w).2 1.
Proof.
  unfold wrr, bind.
  destruct (dict_keys table) as [| a0 rest]; [apply quiet_refl |].
  unfold ret at 1. destruct (1 <? dict_len table); [| apply quiet_refl].
  unfold randint. destruct (sum (dict_values table) <? 1);
    [apply quiet_refl |].
  unfold quiet. simpl. split; [reflexivity |]. split; [lia |].
  eexists. split; reflexivity.
Qed.

Lemma site_answer_quiet mclass qzone qtype w :
  quiet w (site_answer mclass qzone qtype w).2 1.
Proof.
  unfold site_answer, bind, getitem.
  destruct (mclass !! qtype) as [rs |]; [| apply quiet_refl].
  unfold ret at 1. destruct (rs_content rs) as [c |]; [| apply quiet_refl].
  unfold ret at 1. destruct (c !! "default") as [dflt |]; [| apply quiet_refl].
  unfold ret at 1. pose proof (wrr_quiet (default dflt (c !! qzone)) w) as Q.
  destruct (wrr (default dflt (c !! qzone)) w) as [[a | e] w1]; exact Q.
Qed.

Lemma site_loop_quiet mclass qzone qtypes : forall acc w,
  quiet w (site_loop mclass qzone qtypes acc w).2 (length qtypes).
Proof.
  induction qtypes as [| qtype rest IH]; intros acc w; simpl;
    [apply quiet_refl |].
  unfold bind at 1. pose proof (site_answer_quiet mclass qzone qtype w) as Q.
  destruct (site_answer mclass qzone qtype w) as [[ans | e] w1]; simpl in Q.
  - apply (quiet_trans w w1 _ 1 (length rest) Q), IH.
  - simpl. destruct Q as (E & D & T). split; [exact E |]. split; [lia | exact T].
Qed.

Lemma quiet_logged w msg n : quiet w (logged w (LogWarning msg)) n.
Proof.
  split; [reflexivity |]. split; [simpl; lia |].
  exists [LogWarning msg]. split; reflexivity.
Qed.

(** X10: [site] never asks the GeoIP reader, leaves the random source as it
    found it, and draws at most one random number for each answer it
    returns. *)
Theorem site_effects sites qname qzone qclass qtype w answers w' :
  site sites qname qzone qclass qtype w = (Return answers, w') ->
  entropy w' = entropy w
  /\ (draws w <= draws w' <= draws w + length answers)%nat
  /\ exists evs, trace w' = (trace w ++ evs)%list /\ lookups evs = [].
Proof.
  rewrite site_run.
  destruct (matched sites qname) as [mname |];
    [| intros [= <- <-]; apply quiet_logged].
  destruct (sites !! mname ≫= (.!! qclass)) as [mclass |];
    [| intros [= <- <-]; apply quiet_logged].
  assert (forall qtypes,
             site_loop mclass qzone qtypes [] w = (Return answers, w') ->
             quiet w w' (length answers)) as G.
  { intros qtypes H. pose proof (site_loop_quiet mclass qzone qtypes [] w) as Q.
    rewrite H in Q. simpl in Q.
    apply site_loop_inv in H as (l & -> & HF).
    apply Forall2_length in HF. now rewrite app_nil_l, <- HF. }
  destruct (String.eqb qtype "ANY"); [apply G |].
  destruct (dict_in qtype mclass); [apply G |].
  intros [= <- <-]. apply quiet_logged.
Qed.

Lemma site_effects_witness :
  exists evs,
    trace (site sites_example "www.example.com" "eu" "IN" "ANY"
             world_example).2
    = (trace world_example ++ evs)%list
    /\ lookups evs = [].
Proof.
  destruct (site_effects sites_example "www.example.com" "eu" "IN" "ANY"
              world_example
              [("A", "1.1.1.1", 3600); ("MX", "10 mail.example.com", 60)]
              (World (entropy world_example) 1 [RandInt 1 100 1]) eq_refl)
    as (_ & _ & H).
  exact H.
Defined.

(** X11: [qtype = 'ANY'] on a class without any type returns the empty list
    and, unlike the other misses, logs nothing. *)
Theorem site_any_empty_class sites qname qzone qclass mname w :
  matched sites qname = Some mname ->
  sites !! mname ≫= (.!! qclass) = Some ∅ ->
  site sites qname qzone qclass "ANY" w = (Return [], w).
Proof.
  intros Hm Hc. rewrite site_run, Hm, Hc. simpl.
  unfold dict_keys. now rewrite map_to_list_empty.
Qed.

Lemma site_any_empty_class_witness :
  site sites_empty_class_example "www.example.com" "eu" "IN" "ANY"
    world_example
  = (Return [], world_example).
Proof.
  apply (site_any_empty_class sites_empty_class_example "www.example.com"
           "eu" "IN" "www.example.com"); reflexivity.
Defined.

(** ** [reserved] *)

Lemma reserved_block address ip net :
  ipaddr.IPAddress address = Some ip ->
  In net reserved_blocks ->
  ipaddr.contains net ip = true ->
  reserved address = true.
Proof.
  intros H Hin Hc. unfold reserved. rewrite H.
  pose proof (reserved_in_block ip net Hin Hc) as R.
  apply orb_true_iff in R as [R | R]; rewrite R; now rewrite !orb_true_r.
Qed.

(** X12: an IPv4-mapped IPv6 address ([::ffff:a.b.c.d]) is reserved whatever
    the IPv4 address inside it. *)
Theorem reserved_ipv4_mapped (address : string) (n : Z) :
  0 <= n < 2 ^ 32 ->
  ipaddr.IPAddress address = Some (ipaddr.IPv6Address (281470681743360 + n)) ->
  reserved address = true.
Proof.
  intros Hn H.
  apply (reserved_block address _ (ipaddr.Network 6 281470681743360 96) H).
  - vm_compute. tauto.
  - unfold ipaddr.contains. simpl ipaddr.version. simpl ipaddr.int_of.
    change (ipaddr.net_network (ipaddr.Network 6 281470681743360 96))
      with 281470681743360.
    change (ipaddr.net_broadcast (ipaddr.Network 6 281470681743360 96))
      with 281474976710655.
    change (2 ^ 32) with 4294967296 in Hn.
    apply andb_true_iff. split; apply Z.leb_le; lia.
Qed.

Lemma reserved_ipv4_mapped_witness : reserved "::ffff:8.8.8.8" = true.
Proof.
  apply (reserved_ipv4_mapped "::ffff:8.8.8.8" 134744072).
  - vm_compute. split; [discriminate | reflexivity].
  - reflexivity.
Defined.

Ltac pick_disjunct :=
  first [ solve [lia] | solve [left; lia] | right; pick_disjunct ].

Ltac evaluate t := let v := eval vm_compute in t in change t with v.

(** Turns the networks of the goal, all of them closed, into the bounds
    they stand for, and leaves the comparisons with the address. *)
Ltac evaluate_networks :=
  unfold ipaddr.is_private, ipaddr.is_multicast, ipaddr.is_unspecified,
    ipaddr.is_loopback, ipaddr.is_link_local, ipaddr.in_net;
  cbn [ipaddr.version ipaddr.is_v4 ipaddr.is_v6];
  evaluate _IPV4_PRIVATE_NETWORKS; evaluate _IPV6_PRIVATE_NETWORKS;
  evaluate shared_address_space;
  repeat match goal with
    | |- context [ipaddr.IPv4Network ?s] => evaluate (ipaddr.IPv4Network s)
    | |- context [ipaddr.IPv6Network ?s] => evaluate (ipaddr.IPv6Network s)
    | |- context [Z.eqb 4 4] => evaluate (Z.eqb 4 4)
    | |- context [Z.eqb 6 4] => evaluate (Z.eqb 6 4)
    end;
  cbv beta iota; unfold ipaddr.contains;
  cbn [existsb ipaddr.net_version ipaddr.version ipaddr.int_of];
  repeat match goal with
    | |- context [ipaddr.net_network ?t] => evaluate (ipaddr.net_network t)
    | |- context [ipaddr.net_broadcast ?t] => evaluate (ipaddr.net_broadcast t)
    | |- context [negb (Z.eqb ?a ?b)] => evaluate (negb (Z.eqb a b))
    end;
  cbv beta iota.

(** X13: on IPv4 addresses [reserved] is membership in fourteen ranges:
    the private networks table, 100.64.0.0/10, and everything from
    224.0.0.0 upwards; the properties of [ipaddr] add nothing to them. *)
Theorem reserved_v4_exactly (address : string) (n : Z) :
  ipaddr.IPAddress address = Some (ipaddr.IPv4Address n) ->
  reserved address = in_ranges reserved_v4_ranges n.
Proof.
  intros H. unfold reserved. rewrite H. apply eq_true_iff_eq.
  evaluate_networks.
  evaluate reserved_v4_ranges. unfold in_ranges. cbn [existsb fst snd].
  rewrite ?andb_true_l, ?orb_false_r, ?andb_false_l, ?orb_false_r.
  rewrite !orb_true_iff, !andb_true_iff, !Z.leb_le.
  split; intros D; repeat (destruct D as [D | D]); pick_disjunct.
Qed.

Lemma reserved_v4_exactly_witness :
  reserved "100.128.0.1" = false /\ reserved "192.0.0.171" = true.
Proof.
  split.
  - now rewrite (reserved_v4_exactly "100.128.0.1" (v4 100 128 0 1) eq_refl).
  - now rewrite (reserved_v4_exactly "192.0.0.171" (v4 192 0 0 171) eq_refl).
Defined.

(** X14: on IPv6 addresses [reserved] is membership in eight ranges:
    [::] and [::1], the IPv4-mapped addresses, 100::/64, 2001::/23,
    2001:db8::/32, fc00::/7, fe80::/10 and the multicast ff00::/8. *)
Theorem reserved_v6_exactly (address : string) (n : Z) :
  ipaddr.IPAddress address = Some (ipaddr.IPv6Address n) ->
  reserved address = in_ranges reserved_v6_ranges n.
Proof.
  intros H. unfold reserved. rewrite H. apply eq_true_iff_eq.
  evaluate_networks.
  evaluate reserved_v6_ranges. unfold in_ranges. cbn [existsb fst snd].
  rewrite ?andb_true_l, ?orb_false_r, ?andb_false_l, ?orb_false_r.
  rewrite !orb_true_iff, !andb_true_iff, !Z.leb_le, !Z.eqb_eq.
  split; intros D; repeat (destruct D as [D | D]); pick_disjunct.
Qed.

Lemma reserved_v6_exactly_witness :
  reserved "fec0::1" = false /\ reserved "2001:10::1" = true.
Proof.
  split.
  - now rewrite (reserved_v6_exactly "fec0::1" (v6 0xfec0 0 0 0 0 0 0 1)
                   eq_refl).
  - now rewrite (reserved_v6_exactly "2001:10::1" (v6 0x2001 0x10 0 0 0 0 0 1)
                   eq_refl).
Defined.

(** ** Weighted round robin *)

Lemma string_compare_refl (s : string) : String.compare s s = Eq.
Proof.
  induction s as [| a s IH]; simpl; [reflexivity |].
  now rewrite ascii_compare_refl.
Qed.

#[global] Instance str_le_refl : Reflexive Py.str_le.
Proof.
  intros s. unfold Py.str_le, String.leb. now rewrite string_compare_refl.
Qed.

(** In a sorted list, an address whose share starts below the end of the
    share of another one is not after it. *)
Lemma before_order mcontent l a1 a2 :
  StronglySorted Py.str_le l ->
  (forall x, x ∈ l -> 0 <= mcontent !!! x) ->
  a1 ∈ l -> a2 ∈ l ->
  before mcontent l a1 < before mcontent l a2 + mcontent !!! a2 ->
  Py.str_le a1 a2.
Proof.
  induction 1 as [| x l Hs IH Hx]; intros Hpos H1 H2 Hb;
    [now apply elem_of_nil in H1 |].
  simpl in Hb. destruct (decide (x = a1)) as [-> | Hn1].
  - apply elem_of_cons in H2 as [-> | H2]; [reflexivity |].
    rewrite Forall_forall in Hx. now apply Hx.
  - apply elem_of_cons in H1 as [-> | H1]; [congruence |].
    destruct (decide (x = a2)) as [-> | Hn2].
    + assert (0 <= before mcontent l a1)
        by (apply before_nonneg; intros y Hy; apply Hpos; now right).
      lia.
    + apply elem_of_cons in H2 as [-> | H2]; [congruence |].
      apply IH; [intros y Hy; apply Hpos; now right | exact H1 | exact H2 | lia].
Qed.

(** X15: with positive weights the chosen address grows with the number
    drawn: a larger [r] never gives an address that sorts earlier. *)
Theorem wrr_pick_monotone (mcontent : gmap string Z) address r1 r2 :
  map_Forall (fun _ wt => 0 < wt) mcontent ->
  1 <= r1 -> r1 <= r2 -> r2 <= sum (dict_values mcontent) ->
  Py.str_le (wrr_pick mcontent address r1) (wrr_pick mcontent address r2).
Proof.
  intros Hpos H1 H12 H2.
  destruct (wrr_pick_share mcontent Hpos address r1) as [Hin1 Hb1]; [lia |].
  destruct (wrr_pick_share mcontent Hpos address r2) as [Hin2 Hb2]; [lia |].
  apply (before_order mcontent (Py.sorted (dict_keys mcontent)));
    [apply sorted_ascending | | exact Hin1 | exact Hin2 | lia].
  intros x Hx. now apply addresses_nonneg.
Qed.

Lemma wrr_pick_monotone_witness :
  Py.str_le (wrr_pick table_example "1.1.1.1" 20)
    (wrr_pick table_example "1.1.1.1" 21).
Proof.
  apply wrr_pick_monotone.
  - apply (bool_decide_unpack _). vm_compute. exact I.
  - lia.
  - lia.
  - vm_compute. discriminate.
Defined.
